(** * Terminal: the interaction state machine of src/components/Terminal.tsx

    The component keeps eight [useState] cells, one [setInterval] per
    auto-typed prompt, one [setTimeout] per prompt commit and one
    [setTimeout] per agent start.  The embedding keeps the cells in a record,
    the timers in an explicit scheduler state, and turns every callback of the
    component (timer callbacks, DOM handlers, effect and cleanup) into a
    function on that state.  Wall-clock delays (40 ms, 300 ms, 3000 ms) are
    abstracted: a scheduled callback may fire at any later moment, which
    covers every timing the browser can produce.  The scroll and focus
    effects (lines 56-74, 143-147) only touch DOM refs and are left out, as
    is the markup except for the two conditions that decide which handler
    can be reached (lines 218 and 247). *)

From Stdlib Require Import String Ascii List Arith Bool Lia NArith DecimalString.
Import ListNotations.
Open Scope string_scope.
Open Scope nat_scope.
Open Scope list_scope.

(** ** Strings as the handlers use them *)

Module Js.

(** Code units that [String.prototype.trim] strips (WhiteSpace and
    LineTerminator), restricted to the one-byte range of [ascii]:
    TAB, LF, VT, FF, CR, SP and NBSP. *)
Definition isWhiteSpace (c : ascii) : bool :=
  let n := nat_of_ascii c in
  (n =? 9) || (n =? 10) || (n =? 11) || (n =? 12) || (n =? 13)
  || (n =? 32) || (n =? 160).

Fixpoint trimStart (s : string) : string :=
  match s with
  | EmptyString => EmptyString
  | String c r => if isWhiteSpace c then trimStart r else s
  end.

Fixpoint trimEnd (s : string) : string :=
  match s with
  | EmptyString => EmptyString
  | String c r =>
      match trimEnd r with
      | EmptyString => if isWhiteSpace c then EmptyString else String c EmptyString
      | r' => String c r'
      end
  end.

(** [s.trim()] *)
Definition trim (s : string) : string := trimEnd (trimStart s).

(** [s.charAt(i)]: the one-character string at [i], empty out of range. *)
Definition charAt (s : string) (i : nat) : string :=
  match String.get i s with
  | Some c => String c EmptyString
  | None => EmptyString
  end.

(** Truthiness of a string in a condition: non-empty. *)
Definition truthy (s : string) : bool := negb (String.eqb s "").

(** [Date.now().toString()] for the clock value [now]. *)
Definition Date_now_toString (now : N) : string :=
  NilEmpty.string_of_uint (N.to_uint now).

End Js.

(** ** Types and constants (Terminal.tsx lines 3-21) *)

Inductive LineType := system | user.

Module TerminalLine.
Record t := make { id : string; type : LineType; text : string }.
End TerminalLine.

Definition PROMPTS : list string :=
  [ "Enter Github Repository Link";
    "Enter Team Name";
    "Enter Team Leader Name" ].

(** Milliseconds per character; the model does not measure time. *)
Definition TYPING_SPEED : nat := 40.

(** ** State *)

(** The eight [useState] cells (lines 26-48). *)
Record Hooks := mkHooks {
  history : list TerminalLine.t;
  step : nat;
  currentText : string;
  repoLink : string;
  teamName : string;
  leaderName : string;
  isLoading : bool;
  isTyping : bool
}.

(** The closure of one run of the auto-type effect: [targetText] and the
    mutable [charIndex] that the interval callback reads and increments. *)
Record AutoType := mkAutoType { targetText : string; charIndex : nat }.

(** A callback handed to [setTimeout] together with what it closes over. *)
Inductive Callback :=
| CommitPrompt (target : string)          (* line 100, delay 300 *)
| AgentStarted (repo team leader : string). (* line 153, delay 3000 *)

Record State := mkState {
  hooks :> Hooks;
  intervalId : option AutoType;   (* the live [setInterval], if any *)
  effectCleanup : bool;           (* did the last effect run return a cleanup? *)
  timeouts : list Callback;       (* pending [setTimeout] callbacks *)
  console : list (string * string * string); (* "Agent Started" log entries *)
  mounted : bool
}.

(** *** State updates

    A [setX] call on a mounted component replaces one cell; React drops
    updates addressed to a component that has been unmounted. *)

Definition setState (f : Hooks -> Hooks) (s : State) : State :=
  if mounted s
  then mkState (f s) (intervalId s) (effectCleanup s) (timeouts s) (console s) (mounted s)
  else s.

Definition setHistory (f : list TerminalLine.t -> list TerminalLine.t) : State -> State :=
  setState (fun h => mkHooks (f (history h)) (step h) (currentText h) (repoLink h)
                             (teamName h) (leaderName h) (isLoading h) (isTyping h)).
Definition setStep (f : nat -> nat) : State -> State :=
  setState (fun h => mkHooks (history h) (f (step h)) (currentText h) (repoLink h)
                             (teamName h) (leaderName h) (isLoading h) (isTyping h)).
Definition setCurrentText (f : string -> string) : State -> State :=
  setState (fun h => mkHooks (history h) (step h) (f (currentText h)) (repoLink h)
                             (teamName h) (leaderName h) (isLoading h) (isTyping h)).
Definition setRepoLink (v : string) : State -> State :=
  setState (fun h => mkHooks (history h) (step h) (currentText h) v
                             (teamName h) (leaderName h) (isLoading h) (isTyping h)).
Definition setTeamName (v : string) : State -> State :=
  setState (fun h => mkHooks (history h) (step h) (currentText h) (repoLink h)
                             v (leaderName h) (isLoading h) (isTyping h)).
Definition setLeaderName (v : string) : State -> State :=
  setState (fun h => mkHooks (history h) (step h) (currentText h) (repoLink h)
                             (teamName h) v (isLoading h) (isTyping h)).
Definition setIsLoading (v : bool) : State -> State :=
  setState (fun h => mkHooks (history h) (step h) (currentText h) (repoLink h)
                             (teamName h) (leaderName h) v (isTyping h)).
Definition setIsTyping (v : bool) : State -> State :=
  setState (fun h => mkHooks (history h) (step h) (currentText h) (repoLink h)
                             (teamName h) (leaderName h) (isLoading h) v).

(** *** Scheduler updates *)

Definition withInterval (i : option AutoType) (s : State) : State :=
  mkState s i (effectCleanup s) (timeouts s) (console s) (mounted s).
Definition withCleanup (b : bool) (s : State) : State :=
  mkState s (intervalId s) b (timeouts s) (console s) (mounted s).
Definition withTimeouts (l : list Callback) (s : State) : State :=
  mkState s (intervalId s) (effectCleanup s) l (console s) (mounted s).
Definition withConsole (l : list (string * string * string)) (s : State) : State :=
  mkState s (intervalId s) (effectCleanup s) (timeouts s) l (mounted s).
Definition withMounted (b : bool) (s : State) : State :=
  mkState s (intervalId s) (effectCleanup s) (timeouts s) (console s) b.

Definition clearInterval : State -> State := withInterval None.
Definition setTimeout (c : Callback) (s : State) : State :=
  withTimeouts (timeouts s ++ [c]) s.

(** ** The auto-type effect (lines 77-113) *)

(** When React runs the updater function handed to [setCurrentText] in the
    interval callback.  The updater [(prev) => prev + targetText.charAt(charIndex)]
    closes over the mutable variable [charIndex], and the callback increments
    that variable right after the [setCurrentText] call.  React's contract for
    an updater is that it is queued and applied when the component next
    renders; a root that renders synchronously inside the call, or the eager
    computation React performs when the update queue is empty, applies it
    before the call returns.  Both are possible for the source as written, so
    each tick carries which one happened:
    - [AtCall]: the updater ran before [charIndex++];
    - [AtRender]: the updater ran at the render that follows the callback,
      after [charIndex++] and before the next tick. *)
Inductive UpdaterRun := AtCall | AtRender.

(** Body of the effect, run after a render in which [step] changed (and after
    the first render).  Lines 79-111: the branch returns a cleanup function,
    the fall-through returns none.  Under the guard [step / 2] is 0, 1 or 2,
    so the default of [nth] is never used ([PROMPTS_in_range]). *)
Definition autoTypeEffect (s : State) : State :=
  if (step s mod 2 =? 0) && (step s <? 6) then
    let s1 := setIsTyping true s in
    let promptIndex := step s / 2 in
    let target := nth promptIndex PROMPTS "" in
    let s2 := setCurrentText (fun _ => "") s1 in
    withCleanup true (withInterval (Some (mkAutoType target 0)) s2)
  else withCleanup false s.

(** The cleanup function of line 111, [() => clearInterval(intervalId)],
    when the last effect run returned one. *)
Definition runCleanup (s : State) : State :=
  if effectCleanup s then clearInterval s else s.

(** The interval callback (lines 86-109). *)
Definition intervalCallback (r : UpdaterRun) (s : State) : State :=
  match intervalId s with
  | None => s
  | Some a =>
      if charIndex a <? String.length (targetText a) then
        let read := match r with AtCall => charIndex a | AtRender => charIndex a + 1 end in
        let s1 := setCurrentText
                    (fun prev => String.append prev (Js.charAt (targetText a) read)) s in
        withInterval (Some (mkAutoType (targetText a) (charIndex a + 1))) s1
      else
        let s1 := clearInterval s in
        let s2 := setIsTyping false s1 in
        setTimeout (CommitPrompt (targetText a)) s2
  end.

(** The two [setTimeout] callbacks: lines 100-107 and lines 153-157. *)
Definition timeoutCallback (c : Callback) (now : N) (s : State) : State :=
  match c with
  | CommitPrompt target =>
      let s1 := setHistory
                  (fun prev => prev ++ [TerminalLine.make (Js.Date_now_toString now) system target]) s in
      let s2 := setCurrentText (fun _ => "") s1 in
      setStep (fun prev => prev + 1) s2
  | AgentStarted repo team leader =>
      withConsole (console s ++ [(repo, team, leader)]) s
  end.

(** ** Handlers (lines 117-161) *)

Definition handleUserInputChange (value : string) (s : State) : State :=
  if negb (step s mod 2 =? 0) then setCurrentText (fun _ => value) s else s.

Definition handleKeyDown (key : string) (now : N) (s : State) : State :=
  if (key =? "Enter")%string && negb (isTyping s)
     && (0 <? String.length (Js.trim (currentText s))) then
    let val := Js.trim (currentText s) in
    let s1 := if step s =? 1 then setRepoLink val s else s in
    let s2 := if step s =? 3 then setTeamName val s1 else s1 in
    let s3 := if step s =? 5 then setLeaderName val s2 else s2 in
    let s4 := setHistory
                (fun prev => prev ++ [TerminalLine.make (Js.Date_now_toString now) user val]) s3 in
    let s5 := setCurrentText (fun _ => "") s4 in
    setStep (fun prev => prev + 1) s5
  else s.

Definition handleRunAgent (s : State) : State :=
  if (step s =? 6) && Js.truthy (repoLink s) && Js.truthy (teamName s)
     && Js.truthy (leaderName s) then
    let s1 := setIsLoading true s in
    setTimeout (AgentStarted (repoLink s) (teamName s) (leaderName s)) s1
  else s.

Definition isButtonEnabled (s : State) : bool :=
  (step s =? 6) && negb (isLoading s) && negb (repoLink s =? "")%string
  && negb (teamName s =? "")%string && negb (leaderName s =? "")%string.

(** ** The component as a whole *)

(** The hidden input exists in the DOM only under the condition of line 247;
    its [onChange] and [onKeyDown] are the only way to the two input
    handlers. *)
Definition inputRendered (s : State) : bool :=
  mounted s && negb (step s mod 2 =? 0) && negb (isLoading s).

(** The button of lines 216-218 carries [disabled={!isButtonEnabled}]; a
    disabled button delivers no click. *)
Definition buttonClickable (s : State) : bool :=
  mounted s && isButtonEnabled s.

(** After a callback has updated the cells React renders again; the auto-type
    effect has [step] as its only dependency, so its cleanup and body run
    again exactly when [step] differs from the previous render. *)
Definition commitRender (prevStep : nat) (s : State) : State :=
  if mounted s && negb (step s =? prevStep)
  then autoTypeEffect (runCleanup s)
  else s.

(** Everything that can happen to the component. *)
Inductive Event :=
| Tick (r : UpdaterRun)           (* the interval fires *)
| Timeout (i : nat) (now : N)     (* the [i]-th pending timeout fires *)
| Change (value : string)         (* [onChange] of the hidden input *)
| KeyDown (key : string) (now : N) (* [onKeyDown] of the hidden input *)
| Click                           (* click on the Run Agent button *)
| Unmount.                        (* the component is torn down *)

Fixpoint removeAt {A} (i : nat) (l : list A) : list A :=
  match l, i with
  | [], _ => []
  | _ :: r, 0 => r
  | x :: r, S j => x :: removeAt j r
  end.

Definition dispatch (e : Event) (s : State) : State :=
  match e with
  | Tick r => intervalCallback r s
  | Timeout i now =>
      match nth_error (timeouts s) i with
      | None => s
      | Some c =>
          commitRender (step s)
            (timeoutCallback c now (withTimeouts (removeAt i (timeouts s)) s))
      end
  | Change value =>
      if inputRendered s then handleUserInputChange value s else s
  | KeyDown key now =>
      if inputRendered s then commitRender (step s) (handleKeyDown key now s) else s
  | Click =>
      if buttonClickable s then handleRunAgent s else s
  | Unmount =>
      if mounted s then withMounted false (runCleanup s) else s
  end.

Definition run (es : list Event) (s : State) : State :=
  fold_left (fun s e => dispatch e s) es s.

Definition initialHooks : Hooks := mkHooks [] 0 "" "" "" "" false false.

Definition initialState : State := mkState initialHooks None false [] [] true.

(** First render followed by the first run of the effect. *)
Definition mount : State := autoTypeEffect initialState.

(** A state is reachable when some sequence of events leads to it from
    [mount]. *)
Definition reachable (s : State) : Prop := exists es, s = run es mount.

(** A whole session with every updater applied at call time: each prompt is
    typed ([length + 1] ticks), settles, and is answered. *)
Definition typePrompt (r : UpdaterRun) (i : nat) : list Event :=
  repeat (Tick r) (String.length (nth i PROMPTS "") + 1) ++ [Timeout 0 (N.of_nat i)].

Definition answer (value : string) (now : N) : list Event :=
  [Change value; KeyDown "Enter" now].

Definition session (r : UpdaterRun) (a1 a2 a3 : string) : list Event :=
  typePrompt r 0 ++ answer a1 10 ++ typePrompt r 1 ++ answer a2 11
  ++ typePrompt r 2 ++ answer a3 12.

(** ** Observations used by the statements below *)

(** Pending callbacks of line 100 (prompt commits) among the timeouts. *)
Definition isCommit (c : Callback) : bool :=
  match c with CommitPrompt _ => true | AgentStarted _ _ _ => false end.

Definition pendingCommits (l : list Callback) : nat := length (filter isCommit l).

(** The [step] values along a run, one per state, and the same list with
    stuttering removed: the values the sequencer visits, in order. *)
Fixpoint stepTrace (es : list Event) (s : State) : list nat :=
  step s :: match es with
            | [] => []
            | e :: es' => stepTrace es' (dispatch e s)
            end.

Fixpoint dedupAdjacent (l : list nat) : list nat :=
  match l with
  | [] => []
  | x :: r =>
      match r with
      | [] => [x]
      | y :: _ => if x =? y then dedupAdjacent r else x :: dedupAdjacent r
      end
  end.

Definition stepsVisited (es : list Event) (s : State) : list nat :=
  dedupAdjacent (stepTrace es s).

(** The three answer cells by prompt index. *)
Definition slot (j : nat) (s : State) : string :=
  nth j [repoLink s; teamName s; leaderName s] "".

(** Number of transitions of a run at which answer cell [j] changes. *)
Fixpoint slotChanges (j : nat) (es : list Event) (s : State) : nat :=
  match es with
  | [] => 0
  | e :: es' =>
      (if (slot j (dispatch e s) =? slot j s)%string then 0 else 1)
      + slotChanges j es' (dispatch e s)
  end.

(** [n] confirm events in a row. *)
Definition confirms (ks : list (string * N)) : list Event :=
  map (fun k => KeyDown (fst k) (snd k)) ks.

(** The first prompt typed out, with the interval callback having just
    scheduled the commit of line 100: the 300 ms settle window. *)
Definition settling : State :=
  run (repeat (Tick AtCall) (String.length (nth 0 PROMPTS "") + 1)) mount.

(** A finished session, and the same session after one click on Run Agent. *)
Definition finished : State :=
  run (session AtCall "https://github.com/o/r" "team" "lead") mount.

Definition running : State := dispatch Click finished.

(** Whitespace-only text while awaiting the second answer. *)
Definition awaitingSecond : State :=
  run (typePrompt AtCall 0 ++ answer "https://github.com/o/r" 10
       ++ typePrompt AtCall 1 ++ [Change "   "]) mount.

(** The invariant of the reachable states. *)
Record Inv (s : State) : Prop := mkInv {
  inv_len : length (history s) = step s;
  inv_max : step s <= 6;
  inv_repo : repoLink s = "" <-> step s < 2;
  inv_team : teamName s = "" <-> step s < 4;
  inv_leader : leaderName s = "" <-> step s < 6;
  inv_loading : isLoading s = true -> step s = 6;
  inv_idle : step s mod 2 = 1 \/ step s = 6 ->
             isTyping s = false /\ intervalId s = None
             /\ pendingCommits (timeouts s) = 0;
  inv_interval : intervalId s <> None ->
                 mounted s = true /\ effectCleanup s = true /\ isTyping s = true
                 /\ pendingCommits (timeouts s) = 0;
  inv_commit : pendingCommits (timeouts s) <= 1
               /\ (pendingCommits (timeouts s) = 1 -> isTyping s = false)
}.

(** ** Rendering (lines 19-20, 166-195, 269) *)

Definition SYSTEM_COLOR : string := "text-[#27c93f]".
Definition USER_COLOR : string := "text-white".

(** One rendered span: its colour class and its text content. *)
Record Row := mkRow { className : string; content : string }.

(** [renderHistory]: one row per committed line, in order, with the prompt
    sign of its type in front of the text. *)
Definition renderHistory (s : State) : list Row :=
  map (fun line =>
         match TerminalLine.type line with
         | system => mkRow SYSTEM_COLOR (String.append "> " (TerminalLine.text line))
         | user => mkRow USER_COLOR (String.append "$ " (TerminalLine.text line))
         end)
      (history s).

(** [renderActiveLine]: nothing once [step >= 6]; otherwise the sign and the
    colour follow the parity of [step] and the text is [currentText]. *)
Definition renderActiveLine (s : State) : option Row :=
  if 6 <=? step s then None
  else
    let isSystemStep := step s mod 2 =? 0 in
    Some (mkRow (if isSystemStep then SYSTEM_COLOR else USER_COLOR)
                (String.append (if isSystemStep then "> " else "$ ") (currentText s))).

(** The loading overlay of line 269 is rendered exactly when [isLoading]. *)
Definition overlayRendered (s : State) : bool := isLoading s.

(** ** Further observations *)

(** A committed line without its id. *)
Definition view (l : TerminalLine.t) : LineType * string :=
  (TerminalLine.type l, TerminalLine.text l).

(** The six lines of a whole session for the answers stored in [s]. *)
Definition script (s : State) : list (LineType * string) :=
  [ (system, nth 0 PROMPTS ""); (user, repoLink s);
    (system, nth 1 PROMPTS ""); (user, teamName s);
    (system, nth 2 PROMPTS ""); (user, leaderName s) ].

(** Pending callbacks of line 153 (agent starts) among the timeouts. *)
Definition pendingAgents (l : list Callback) : nat :=
  length (filter (fun c => negb (isCommit c)) l).

(** What the reachable states keep true about the content of history and of
    the animation timers. *)
Record InvH (s : State) : Prop := mkInvH {
  invh_hist : map view (history s) = firstn (step s) (script s);
  invh_interval : forall a, intervalId s = Some a ->
                  targetText a = nth (step s / 2) PROMPTS ""
                  /\ charIndex a <= String.length (targetText a);
  invh_commit : forall t, In (CommitPrompt t) (timeouts s) ->
                t = nth (step s / 2) PROMPTS ""
}.

(** What they keep true about the agent start. *)
Record InvA (s : State) : Prop := mkInvA {
  inva_count : pendingAgents (timeouts s) + length (console s)
               = (if isLoading s then 1 else 0);
  inva_args : forall r t l, In (AgentStarted r t l) (timeouts s) ->
              (r, t, l) = (repoLink s, teamName s, leaderName s);
  inva_console : forall x, In x (console s) ->
                 x = (repoLink s, teamName s, leaderName s)
}.

(** What they keep true about the animation being alive while mounted. *)
Record InvL (s : State) : Prop := mkInvL {
  invl_live : mounted s = true -> step s mod 2 = 0 -> step s < 6 ->
              intervalId s <> None \/ pendingCommits (timeouts s) = 1;
  invl_flag : mounted s = true -> isTyping s = true -> intervalId s <> None
}.

(** The same events with every updater applied at call time. *)
Definition atCall (e : Event) : Event :=
  match e with
  | Tick _ => Tick AtCall
  | _ => e
  end.

(** A state with its current text blanked: everything but that cell. *)
Definition eraseText (s : State) : State :=
  mkState (mkHooks (history s) (step s) "" (repoLink s) (teamName s)
                   (leaderName s) (isLoading s) (isTyping s))
          (intervalId s) (effectCleanup s) (timeouts s) (console s) (mounted s).

(** Two states that differ at most in the current text, and not even there
    on a user step or at step 6. *)
Definition Sim (s1 s2 : State) : Prop :=
  eraseText s1 = eraseText s2
  /\ (step s1 mod 2 = 1 \/ step s1 = 6 -> currentText s1 = currentText s2).

(** ** Elementary facts about the string operations *)

Lemma eqb_empty_false (s : string) : (s =? "")%string = false <-> s <> "".
Proof.
  destruct (String.eqb_spec s ""); split; intros; try congruence; try discriminate.
Qed.

Lemma truthy_nonempty (s : string) : Js.truthy s = true <-> s <> "".
Proof.
  unfold Js.truthy. destruct (String.eqb_spec s ""); cbn; split; intros; congruence.
Qed.

(** Every prompt index the effect can compute is inside [PROMPTS]. *)
Lemma PROMPTS_in_range (k : nat) :
  k < 6 -> nth_error PROMPTS (k / 2) = Some (nth (k / 2) PROMPTS "").
Proof.
  intros H. do 6 (destruct k as [|k]; [reflexivity|]). lia.
Qed.

(** ** Pending prompt commits *)

Lemma pendingCommits_app (l : list Callback) (c : Callback) :
  pendingCommits (l ++ [c]) = pendingCommits l + (if isCommit c then 1 else 0).
Proof.
  unfold pendingCommits. rewrite filter_app, length_app. cbn.
  destruct (isCommit c); reflexivity.
Qed.

Lemma pendingCommits_removeAt (l : list Callback) :
  forall i c, nth_error l i = Some c ->
  pendingCommits l = (if isCommit c then 1 else 0) + pendingCommits (removeAt i l).
Proof.
  unfold pendingCommits.
  induction l as [|x l IH]; intros [|i] c H; cbn in H; try discriminate.
  - injection H as ->. cbn. destruct (isCommit c); reflexivity.
  - specialize (IH _ _ H). cbn. destruct (isCommit x), (isCommit c); cbn in *; lia.
Qed.

(** ** The invariant holds in every reachable state *)

Lemma Inv_mount : Inv mount.
Proof.
  constructor; cbn; try lia; try tauto; try (intuition (lia || discriminate)).
Qed.

#[local] Arguments Nat.modulo : simpl nomatch.
#[local] Arguments Nat.div : simpl nomatch.
#[local] Arguments Nat.ltb : simpl nomatch.
#[local] Arguments Nat.leb : simpl nomatch.
#[local] Arguments Nat.eqb : simpl nomatch.
#[local] Arguments String.eqb : simpl never.
#[local] Arguments String.length : simpl never.
#[local] Arguments Js.trim : simpl never.
#[local] Arguments pendingCommits : simpl never.

Ltac open_state s :=
  let h := fresh "h" in
  destruct s as [h ? ? ? ? ?]; destruct h as [? ? ? ? ? ? ? ?]; cbn in *.

Ltac step_cases st := destruct st as [|[|[|[|[|[|[|st]]]]]]].

Ltac subst_bools :=
  repeat match goal with
         | H : ?x = true |- _ => is_var x; subst x
         | H : ?x = false |- _ => is_var x; subst x
         | H : ?x = None |- _ => is_var x; subst x
         | H : ?x = Some _ |- _ => is_var x; subst x
         end.

Ltac use_iffs :=
  repeat match goal with
         | H : ?P <-> ?a < ?b |- _ =>
             first [ assert P by (apply H; lia)
                   | assert (~ P) by (let X := fresh in intros X; apply H in X; lia) ];
             clear H
         end.

Ltac finish :=
  cbn; rewrite ?length_app; cbn; auto;
  try solve [intuition (congruence || lia)];
  try solve [use_iffs; intuition (congruence || lia)].

Lemma Inv_Tick r s : Inv s -> Inv (dispatch (Tick r) s).
Proof.
  intros [Hl Hm Hr Ht Hd Hlo Hid Hin Hc].
  unfold dispatch, intervalCallback.
  destruct (intervalId s) as [a|] eqn:Ei; [|constructor; rewrite ?Ei; assumption].
  destruct Hin as (Hmo & Hcl & Hty & Hp); [congruence|].
  open_state s. subst_bools.
  destruct (charIndex a <? String.length (targetText a)); cbn.
  - constructor; finish.
  - unfold setTimeout; cbn.
    constructor; cbn; rewrite ?pendingCommits_app, ?Hp; finish.
Qed.

Lemma Inv_Timeout i now s : Inv s -> Inv (dispatch (Timeout i now) s).
Proof.
  intros [Hl Hm Hr Ht Hd Hlo Hid Hin Hc].
  unfold dispatch.
  destruct (nth_error (timeouts s) i) as [c|] eqn:En; [|constructor; assumption].
  pose proof (pendingCommits_removeAt _ _ _ En) as Hrm.
  destruct c as [target|repo team leader]; cbn in Hrm.
  - assert (Hp : pendingCommits (timeouts s) = 1) by lia.
    assert (Hp' : pendingCommits (removeAt i (timeouts s)) = 0) by lia.
    assert (Hty : isTyping s = false) by tauto.
    assert (Hiv : intervalId s = None).
    { destruct (intervalId s); [|reflexivity].
      destruct Hin as (_ & _ & _ & E); [discriminate|lia]. }
    assert (Hpar : step s mod 2 <> 1 /\ step s <> 6).
    { split; intros E; destruct Hid as (_ & _ & E'); auto; lia. }
    clear Hrm En Hid Hin Hc. open_state s. subst_bools.
    destruct mounted0, effectCleanup0.
    all: try solve [cbn; constructor; cbn; rewrite ?Hp'; finish].
    all: step_cases step0; cbn in *; try lia;
        constructor; cbn; rewrite ?Hp'; finish.
  - open_state s. unfold commitRender; cbn.
    rewrite Nat.eqb_refl, andb_false_r.
    constructor; cbn; rewrite <- ?Hrm; finish.
Qed.

Lemma trim_guard_nonempty (t : string) :
  (0 <? String.length t) = true -> t <> "".
Proof.
  intros H E. subst t. discriminate.
Qed.

Lemma Inv_Change value s : Inv s -> Inv (dispatch (Change value) s).
Proof.
  intros H. pose proof H as [Hl Hm Hr Ht Hd Hlo Hid Hin Hc].
  unfold dispatch, inputRendered, handleUserInputChange.
  destruct (mounted s) eqn:Em; cbn; [|assumption].
  destruct (negb (step s mod 2 =? 0)) eqn:Ep; cbn; [|assumption].
  destruct (isLoading s) eqn:El; cbn; [assumption|].
  clear H. open_state s. subst_bools. constructor; finish.
Qed.

Lemma Inv_KeyDown key now s : Inv s -> Inv (dispatch (KeyDown key now) s).
Proof.
  intros H. pose proof H as [Hl Hm Hr Ht Hd Hlo Hid Hin Hc].
  unfold dispatch, handleKeyDown.
  destruct (inputRendered s) eqn:Er; [|assumption].
  destruct ((key =? "Enter")%string && negb (isTyping s)
            && (0 <? String.length (Js.trim (currentText s)))) eqn:Eg.
  2:{ unfold commitRender. rewrite Nat.eqb_refl, andb_false_r. assumption. }
  apply andb_prop in Eg as [Eg Ev]. apply trim_guard_nonempty in Ev.
  unfold inputRendered in Er. clear H Eg.
  open_state s.
  destruct mounted0, isLoading0; cbn in Er; rewrite ?andb_false_r in Er;
    try discriminate.
  step_cases step0; cbn in Er; try discriminate; try lia.
  all: destruct Hid as (Hty & Hiv & Hp); [cbn; auto|]; subst_bools.
  all: destruct effectCleanup0; cbn; constructor; cbn; rewrite ?Hp; finish.
Qed.

Lemma Inv_Click s : Inv s -> Inv (dispatch Click s).
Proof.
  intros H. pose proof H as [Hl Hm Hr Ht Hd Hlo Hid Hin Hc].
  unfold dispatch, buttonClickable, isButtonEnabled, handleRunAgent.
  destruct (mounted s) eqn:Em; cbn; [|assumption].
  destruct (step s =? 6) eqn:E6; cbn; [|assumption].
  apply Nat.eqb_eq in E6.
  destruct (isLoading s) eqn:El; cbn; [assumption|].
  destruct (negb (repoLink s =? "")%string && negb (teamName s =? "")%string
            && negb (leaderName s =? "")%string); [|assumption].
  destruct (Js.truthy (repoLink s) && Js.truthy (teamName s)
            && Js.truthy (leaderName s)); [|assumption].
  clear H. open_state s. subst_bools. unfold setTimeout; cbn.
  constructor; cbn; rewrite ?pendingCommits_app; finish.
Qed.

Lemma Inv_Unmount s : Inv s -> Inv (dispatch Unmount s).
Proof.
  intros H. pose proof H as [Hl Hm Hr Ht Hd Hlo Hid Hin Hc].
  unfold dispatch, runCleanup.
  destruct (mounted s) eqn:Em; [|assumption].
  clear H. open_state s. subst_bools.
  destruct effectCleanup0; cbn; constructor; finish.
Qed.

Lemma Inv_dispatch e s : Inv s -> Inv (dispatch e s).
Proof.
  destruct e; auto using Inv_Tick, Inv_Timeout, Inv_Change, Inv_KeyDown,
    Inv_Click, Inv_Unmount.
Qed.

Lemma Inv_run es : forall s, Inv s -> Inv (run es s).
Proof.
  induction es as [|e es IH]; intros s H; cbn; auto using Inv_dispatch.
Qed.

Lemma Inv_reachable s : reachable s -> Inv s.
Proof. intros [es ->]. apply Inv_run, Inv_mount. Qed.

Lemma run_app es1 es2 s : run (es1 ++ es2) s = run es2 (run es1 s).
Proof. unfold run. apply fold_left_app. Qed.

Lemma reachable_dispatch e s : reachable s -> reachable (dispatch e s).
Proof.
  intros [es ->]. exists (es ++ [e]). rewrite run_app. reflexivity.
Qed.

Lemma reachable_run es s : reachable s -> reachable (run es s).
Proof.
  intros [es0 ->]. exists (es0 ++ es). rewrite run_app. reflexivity.
Qed.

(** ** What the effect machinery leaves alone *)

Ltac split_ifs :=
  repeat match goal with
         | |- context [if ?b then _ else _] => destruct b eqn:?; cbn
         | |- context [match ?o with Some _ => _ | None => _ end] =>
             destruct o eqn:?; cbn
         | |- context [match ?c with CommitPrompt _ => _ | AgentStarted _ _ _ => _ end] =>
             destruct c eqn:?; cbn
         | |- context [match ?r with AtCall => _ | AtRender => _ end] =>
             destruct r eqn:?; cbn
         end.

Ltac eqb_facts :=
  repeat match goal with
         | H : (_ =? _) = true |- _ => apply Nat.eqb_eq in H
         | H : (_ =? _) = false |- _ => apply Nat.eqb_neq in H
         end.

Ltac brute s :=
  unfold dispatch, commitRender, autoTypeEffect, runCleanup, intervalCallback,
    timeoutCallback, handleUserInputChange, handleKeyDown, handleRunAgent,
    inputRendered, buttonClickable, setTimeout, clearInterval;
  let h := fresh "h" in
  let m := fresh "m" in
  destruct s as [h ? ? ? ? m]; destruct h as [? ? ? ? ? ? ? ?]; destruct m;
  cbn in *; split_ifs; rewrite ?length_app; cbn; auto.

Lemma history_dispatch e s :
  exists l, history (dispatch e s) = history s ++ l.
Proof.
  assert (H0 : forall h : list TerminalLine.t, exists l, h = h ++ l)
    by (intros h; exists []; symmetry; apply app_nil_r).
  assert (H1 : forall (h : list TerminalLine.t) x, exists l, h ++ [x] = h ++ l)
    by (intros h x; exists [x]; reflexivity).
  destruct e; brute s.
Qed.

Lemma history_run es : forall s : State, exists l, history (run es s) = history s ++ l.
Proof.
  induction es as [|e es IH]; intros s; cbn.
  - exists []. symmetry. apply app_nil_r.
  - destruct (IH (dispatch e s)) as [l2 H2].
    destruct (history_dispatch e s) as [l1 H1].
    exists (l1 ++ l2). unfold run in H2. rewrite H2, H1. symmetry. apply app_assoc.
Qed.

Lemma step_dispatch e s :
  step (dispatch e s) = step s \/ step (dispatch e s) = step s + 1.
Proof. destruct e; brute s. Qed.

Lemma step_run_mono es : forall s : State, step s <= step (run es s).
Proof.
  induction es as [|e es IH]; intros s; cbn; [lia|].
  specialize (IH (dispatch e s)). unfold run in IH.
  destruct (step_dispatch e s); lia.
Qed.

Lemma stepsVisited_run es :
  forall s : State,
    stepsVisited es s = seq (step s) (step (run es s) - step s + 1).
Proof.
  unfold stepsVisited.
  induction es as [|e es IH]; intros s.
  - cbn. replace (step s - step s + 1) with 1 by lia. reflexivity.
  - pose proof (step_run_mono es (dispatch e s)) as Hmono.
    specialize (IH (dispatch e s)).
    change (run (e :: es) s) with (run es (dispatch e s)).
    change (stepTrace (e :: es) s) with (step s :: stepTrace es (dispatch e s)).
    destruct es as [|e' es'].
    + cbn in *. destruct (step_dispatch e s) as [E|E]; rewrite E.
      * rewrite Nat.eqb_refl. replace (step s - step s + 1) with 1 by lia.
        reflexivity.
      * replace (step s =? step s + 1) with false
          by (symmetry; apply Nat.eqb_neq; lia).
        replace (step s + 1 - step s + 1) with 2 by lia. cbn.
        do 2 f_equal. lia.
    + change (stepTrace (e' :: es') (dispatch e s))
        with (step (dispatch e s) :: stepTrace es' (dispatch e' (dispatch e s))) in *.
      set (tl := stepTrace es' (dispatch e' (dispatch e s))) in *.
      set (fin := step (run (e' :: es') (dispatch e s))) in *.
      change (dedupAdjacent (step s :: step (dispatch e s) :: tl))
        with (if step s =? step (dispatch e s)
              then dedupAdjacent (step (dispatch e s) :: tl)
              else step s :: dedupAdjacent (step (dispatch e s) :: tl)).
      rewrite IH.
      destruct (step_dispatch e s) as [E|E]; rewrite E in *.
      * rewrite Nat.eqb_refl. reflexivity.
      * replace (step s =? step s + 1) with false
          by (symmetry; apply Nat.eqb_neq; lia).
        replace (fin - step s + 1) with (S (fin - (step s + 1) + 1)) by lia.
        cbn. do 2 f_equal. lia.
Qed.

(** ** History and step (C1, C2) *)

(** C1: history only ever grows at its end -- whatever happens to the
    component, in any state, the committed lines stay in place as a prefix --
    and in every reachable state the number of committed lines equals [step].
    Both commits (lines 101-106 and 133-139) append their line and increment
    [step] in the same callback. *)
Theorem history_append_only_length_is_step (es : list Event) :
  let s := run es mount in
  length (history s) = step s
  /\ (forall es', exists l, history (run es' s) = history s ++ l)
  /\ (forall e, length (history (dispatch e s)) = step (dispatch e s)).
Proof.
  intros s.
  pose proof (Inv_run es mount Inv_mount) as H.
  split; [apply (inv_len _ H)|]. split.
  - intros es'. apply history_run.
  - intros e. apply (inv_len _ (Inv_dispatch e _ H)).
Qed.

(** C2: [step] starts at 0, stays within 0..6 in every reachable state,
    every event leaves it unchanged or adds exactly 1 to it, and the values a
    run visits are 0, 1, ..., up to its current value, each once and in
    increasing order; a session that reaches 6 has visited exactly
    0,1,2,3,4,5,6. *)
Theorem step_counts_up_by_one_to_six (es : list Event) :
  let s := run es mount in
  step initialState = 0 /\ step mount = 0
  /\ step s <= 6
  /\ (forall e, step (dispatch e s) = step s \/ step (dispatch e s) = step s + 1)
  /\ stepsVisited es mount = seq 0 (step s + 1)
  /\ (step s = 6 -> stepsVisited es mount = [0; 1; 2; 3; 4; 5; 6]).
Proof.
  intros s.
  pose proof (Inv_run es mount Inv_mount) as H.
  assert (Hv : stepsVisited es mount = seq 0 (step s + 1)).
  { rewrite stepsVisited_run. change (step mount) with 0.
    rewrite Nat.sub_0_r. reflexivity. }
  repeat split; try reflexivity.
  - apply (inv_max _ H).
  - intros e. apply step_dispatch.
  - exact Hv.
  - intros E. rewrite Hv, E. reflexivity.
Qed.

(** A full session exists: typing the three prompts and answering each one
    takes [step] through 0..6. *)
Example full_session_reaches_six :
  step (run (session AtCall "https://github.com/o/r" "team" "lead") mount) = 6
  /\ stepsVisited (session AtCall "https://github.com/o/r" "team" "lead") mount
     = [0; 1; 2; 3; 4; 5; 6].
Proof. split; vm_compute; reflexivity. Qed.

(** ** Cancellation (C3) *)

(** The cleanup function cancels the interval of its effect run; it is
    registered whenever an interval is live, so a step change or a teardown
    in the middle of an animation stops the character writes. *)
Lemma cleanup_cancels_interval (es : list Event) :
  let s := run es mount in
  intervalId (runCleanup s) = None
  /\ intervalId (dispatch Unmount s) = None
  /\ forall r, dispatch (Tick r) (dispatch Unmount s) = dispatch Unmount s.
Proof.
  intros s. pose proof (Inv_run es mount Inv_mount) as H. fold s in H.
  assert (Hc : intervalId (runCleanup s) = None).
  { unfold runCleanup. destruct (effectCleanup s) eqn:Ec; [reflexivity|].
    destruct (intervalId s) eqn:Ei; [|reflexivity].
    destruct (inv_interval _ H) as (_ & E & _); congruence. }
  assert (Hu : intervalId (dispatch Unmount s) = None).
  { unfold dispatch. destruct (mounted s) eqn:Em; [exact Hc|].
    destruct (intervalId s) eqn:Ei; [|reflexivity].
    destruct (inv_interval _ H) as (E & _); congruence. }
  repeat split; auto.
  intros r. unfold dispatch at 1. unfold intervalCallback. rewrite Hu. reflexivity.
Qed.

(** The cleanup function never touches a pending timeout. *)
Lemma cleanup_keeps_timeouts (s : State) :
  timeouts (runCleanup s) = timeouts s
  /\ timeouts (dispatch Unmount s) = timeouts s.
Proof.
  unfold dispatch, runCleanup.
  destruct (mounted s), (effectCleanup s); split; reflexivity.
Qed.

(** C3 (the code at the failing input): in the settle window the interval
    is already cleared and the commit of line 100 is the one pending
    callback of the animation.  Tearing the component down there runs the
    cleanup of line 111, which clears the (already cleared) interval and
    leaves that commit scheduled; it still fires afterwards, and only
    React's dropping of updates to an unmounted component keeps the line out
    of history.  Were [step] to
    change in the window, the commit would land on the new step: the second
    half replays the confirm handler at that state and then the timeout, and
    the system line is appended after the user line while [step] moves on to
    2 with no answer stored. *)
Theorem teardown_leaves_settle_commit_pending :
  step settling = 0 /\ isTyping settling = false /\ intervalId settling = None
  /\ timeouts settling = [CommitPrompt "Enter Github Repository Link"]
  /\ timeouts (dispatch Unmount settling)
     = [CommitPrompt "Enter Github Repository Link"]
  /\ timeouts (dispatch (Timeout 0 7) (dispatch Unmount settling)) = []
  /\ history (dispatch (Timeout 0 7) (dispatch Unmount settling)) = []
  /\ (let s1 := commitRender (step settling) (handleKeyDown "Enter" 5 settling) in
      let s2 := dispatch (Timeout 0 6) s1 in
      step s1 = 1
      /\ timeouts s1 = [CommitPrompt "Enter Github Repository Link"]
      /\ map (fun l => (TerminalLine.type l, TerminalLine.text l)) (history s2)
         = [(user, "Enter Github Repository Link");
            (system, "Enter Github Repository Link")]
      /\ step s2 = 2 /\ repoLink s2 = "").
Proof. vm_compute. repeat split; reflexivity. Qed.

(** ** The action gate (C4, C5, C9) *)

Lemma isButtonEnabled_spec (s : State) :
  isButtonEnabled s = true
  <-> step s = 6 /\ isLoading s = false /\ repoLink s <> ""
      /\ teamName s <> "" /\ leaderName s <> "".
Proof.
  unfold isButtonEnabled.
  rewrite !andb_true_iff, !negb_true_iff, Nat.eqb_eq, !eqb_empty_false.
  tauto.
Qed.

(** The guard of [handleRunAgent] alone (line 150) rejects every state
    below step 6 or with an empty answer. *)
Lemma handleRunAgent_guard (s : State) :
  step s < 6 \/ repoLink s = "" \/ teamName s = "" \/ leaderName s = "" ->
  handleRunAgent s = s.
Proof.
  intros H. unfold handleRunAgent.
  destruct ((step s =? 6) && Js.truthy (repoLink s) && Js.truthy (teamName s)
            && Js.truthy (leaderName s)) eqn:E; [|reflexivity].
  rewrite !andb_true_iff, Nat.eqb_eq, !truthy_nonempty in E.
  exfalso. intuition lia.
Qed.

(** That guard does not look at [isLoading]: called on a running state the
    handler would leave the eight cells as they are and schedule a second
    "Agent Started" callback.  The disabled button is what keeps a second
    invocation out. *)
Lemma handleRunAgent_guard_ignores_isLoading (s : State) :
  mounted s = true -> step s = 6 -> isLoading s = true ->
  repoLink s <> "" -> teamName s <> "" -> leaderName s <> "" ->
  hooks (handleRunAgent s) = hooks s
  /\ timeouts (handleRunAgent s)
     = timeouts s ++ [AgentStarted (repoLink s) (teamName s) (leaderName s)].
Proof.
  intros Hm H6 Hl Hr Ht Hd. unfold handleRunAgent.
  apply Nat.eqb_eq in H6. apply truthy_nonempty in Hr, Ht, Hd.
  rewrite H6, Hr, Ht, Hd. cbn.
  destruct s as [h ? ? ? ? m]; destruct h; cbn in *. subst. split; reflexivity.
Qed.

(** C4: a click on Run Agent changes nothing -- no cell, no timer -- in
    every state in which [step] is below 6, an answer is empty, or the agent
    is already running: the button is disabled there
    ([disabled={!isButtonEnabled}]), and below step 6 or with an empty answer
    the handler's own guard rejects as well. *)
Theorem run_agent_rejected_unless_enabled (s : State) :
  step s < 6 \/ repoLink s = "" \/ teamName s = "" \/ leaderName s = ""
  \/ isLoading s = true ->
  isButtonEnabled s = false
  /\ dispatch Click s = s
  /\ isLoading (dispatch Click s) = isLoading s
  /\ (isLoading s = false -> handleRunAgent s = s).
Proof.
  intros H.
  assert (E : isButtonEnabled s = false).
  { destruct (isButtonEnabled s) eqn:E; [|reflexivity].
    apply isButtonEnabled_spec in E. exfalso. intuition (lia || congruence). }
  assert (Ec : dispatch Click s = s).
  { unfold dispatch, buttonClickable. rewrite E, andb_false_r. reflexivity. }
  repeat split; auto.
  - rewrite Ec. reflexivity.
  - intros Hl. apply handleRunAgent_guard. intuition congruence.
Qed.

Lemma run_agent_rejected_witness :
  isButtonEnabled running = false /\ dispatch Click running = running.
Proof.
  destruct (run_agent_rejected_unless_enabled running) as (H1 & H2 & _).
  - right; right; right; right. vm_compute. reflexivity.
  - split; [exact H1 | exact H2].
Defined.

(** C5: the button is enabled exactly when [step] is 6, the agent is not
    running and the three answers are non-empty. *)
Theorem button_enabled_iff (s : State) :
  isButtonEnabled s = true
  <-> (step s = 6 /\ isLoading s = false
       /\ repoLink s <> "" /\ teamName s <> "" /\ leaderName s <> "").
Proof.
  unfold isButtonEnabled. split.
  - intros H. repeat (apply andb_prop in H as [H ?]).
    apply Nat.eqb_eq in H.
    repeat match goal with
           | E : negb _ = true |- _ => apply negb_true_iff in E
           end.
    repeat split; auto; apply eqb_empty_false; assumption.
  - intros (H6 & Hl & Hr & Ht & Hd).
    apply Nat.eqb_eq in H6. apply eqb_empty_false in Hr, Ht, Hd.
    rewrite H6, Hl, Hr, Ht, Hd. reflexivity.
Qed.

(** Nothing in the component ever sets [isLoading] back to false. *)
Lemma isLoading_dispatch e (s : State) :
  isLoading s = true -> isLoading (dispatch e s) = true.
Proof. destruct e; brute s. Qed.

Lemma isLoading_run es : forall s : State,
  isLoading s = true -> isLoading (run es s) = true.
Proof.
  induction es as [|e es IH]; intros s H; cbn; auto.
  apply IH, isLoading_dispatch, H.
Qed.

Lemma loading_disables (s : State) :
  isLoading s = true -> isButtonEnabled s = false.
Proof.
  intros H. unfold isButtonEnabled. rewrite H, andb_false_r. reflexivity.
Qed.

(** A click that the button delivers passes the guard of the handler and
    sets [isLoading]. *)
Lemma click_sets_loading (s : State) :
  buttonClickable s = true -> isLoading (dispatch Click s) = true.
Proof.
  intros Hc. unfold dispatch. rewrite Hc.
  unfold buttonClickable in Hc. apply andb_prop in Hc as [Hm He].
  apply isButtonEnabled_spec in He as (H6 & _ & Hr & Ht & Hd).
  unfold handleRunAgent.
  apply Nat.eqb_eq in H6. apply truthy_nonempty in Hr, Ht, Hd.
  rewrite H6, Hr, Ht, Hd. cbn.
  unfold setIsLoading, setState. rewrite Hm. reflexivity.
Qed.

(** C9: the action is unavailable at every step before 6 and available at
    step 6 with the three answers in place; a delivered click sets
    [isLoading], which makes the action unavailable at once; and from a
    running state no sequence of events clears [isLoading] or makes the
    action available again. *)
Theorem invocation_is_final (es : list Event) :
  let s := run es mount in
  (step s < 6 -> isButtonEnabled s = false)
  /\ (step s = 6 -> isLoading s = false ->
      isButtonEnabled s = true
      /\ repoLink s <> "" /\ teamName s <> "" /\ leaderName s <> "")
  /\ (buttonClickable s = true ->
      isLoading (dispatch Click s) = true
      /\ isButtonEnabled (dispatch Click s) = false)
  /\ (isLoading s = true ->
      forall es', isLoading (run es' s) = true
                  /\ isButtonEnabled (run es' s) = false).
Proof.
  intros s. pose proof (Inv_run es mount Inv_mount) as H. fold s in H.
  split; [|split; [|split]].
  - intros Hs. destruct (isButtonEnabled s) eqn:E; [|reflexivity].
    apply isButtonEnabled_spec in E. lia.
  - intros H6 Hl.
    assert (Hr : repoLink s <> "")
      by (intros E; apply (inv_repo _ H) in E; lia).
    assert (Ht : teamName s <> "")
      by (intros E; apply (inv_team _ H) in E; lia).
    assert (Hd : leaderName s <> "")
      by (intros E; apply (inv_leader _ H) in E; lia).
    split; [apply isButtonEnabled_spec|]; auto.
  - intros Hc. pose proof (click_sets_loading s Hc) as Hl.
    split; [exact Hl|apply loading_disables, Hl].
  - intros Hl es'. pose proof (isLoading_run es' s Hl) as Hl'.
    split; [exact Hl'|apply loading_disables, Hl'].
Qed.

(** ** User confirms that must do nothing (C6) *)

(** The guard of [handleKeyDown] alone (line 124) rejects trimmed-empty
    text and confirms during auto-typing. *)
Lemma handleKeyDown_guard key now (s : State) :
  Js.trim (currentText s) = "" \/ isTyping s = true ->
  handleKeyDown key now s = s.
Proof.
  intros H. unfold handleKeyDown.
  destruct H as [H|H]; rewrite H; cbn; rewrite ?andb_false_r; reflexivity.
Qed.

(** That guard does not look at the parity of [step]; during a system step
    it is the missing input element (line 247) that keeps confirms out.
    Replayed on the settle window, where [isTyping] is already false and
    [currentText] holds the typed prompt, the handler alone would commit. *)
Lemma handleKeyDown_guard_ignores_parity :
  step settling = 0 /\ inputRendered settling = false
  /\ step (handleKeyDown "Enter" 5 settling) = 1
  /\ dispatch (KeyDown "Enter" 5) settling = settling.
Proof. vm_compute. repeat split; reflexivity. Qed.

Lemma confirm_rejected key now (s : State) :
  Js.trim (currentText s) = "" \/ isTyping s = true \/ step s mod 2 = 0 ->
  dispatch (KeyDown key now) s = s.
Proof.
  intros H. unfold dispatch.
  destruct (inputRendered s) eqn:Er; [|reflexivity].
  rewrite handleKeyDown_guard.
  - unfold commitRender. rewrite Nat.eqb_refl, andb_false_r. reflexivity.
  - destruct H as [H|[H|H]]; auto.
    unfold inputRendered in Er. apply Nat.eqb_eq in H. rewrite H in Er.
    rewrite andb_false_r in Er. discriminate.
Qed.

(** C6: a confirm that arrives with trimmed-empty text, during
    auto-typing, or during an even step leaves the whole state as it was,
    and so does any number of such confirms in a row; in particular history,
    step, current text and the three answers are unchanged. *)
Theorem confirm_is_noop_when_not_allowed (s : State) (ks : list (string * N)) :
  Js.trim (currentText s) = "" \/ isTyping s = true \/ step s mod 2 = 0 ->
  run (confirms ks) s = s
  /\ history (run (confirms ks) s) = history s
  /\ step (run (confirms ks) s) = step s
  /\ currentText (run (confirms ks) s) = currentText s
  /\ (forall j, slot j (run (confirms ks) s) = slot j s).
Proof.
  intros H.
  assert (E : run (confirms ks) s = s).
  { induction ks as [|[key now] ks IH]; [reflexivity|].
    change (run (confirms ((key, now) :: ks)) s)
      with (run (confirms ks) (dispatch (KeyDown key now) s)).
    rewrite confirm_rejected by exact H. exact IH. }
  rewrite E. repeat split; reflexivity.
Qed.

Lemma confirm_is_noop_witness :
  run (confirms [("Enter", 20%N); ("Enter", 21%N); ("Enter", 22%N)]) awaitingSecond
  = awaitingSecond
  /\ step awaitingSecond = 3 /\ currentText awaitingSecond = "   "
  /\ teamName awaitingSecond = "".
Proof.
  split.
  - apply (confirm_is_noop_when_not_allowed awaitingSecond).
    left. vm_compute. reflexivity.
  - vm_compute. repeat split; reflexivity.
Defined.

(** ** Typing flag on user steps (C10) *)

(** The typing flag goes up only in an event that enters an even step. *)
Lemma typing_raised_on_entering_even_step e (s : State) :
  isTyping s = false -> isTyping (dispatch e s) = true ->
  step (dispatch e s) <> step s /\ step (dispatch e s) mod 2 = 0.
Proof.
  destruct e; brute s; intros; try congruence; try discriminate;
    repeat match goal with
           | H : _ && _ = true |- _ => apply andb_prop in H as [? ?]
           | H : negb _ = true |- _ => apply negb_true_iff in H
           end;
    eqb_facts; split; cbn in *; try lia; try congruence.
Qed.

(** C10: in every reachable state with an odd [step] the typing flag is
    false, no interval is live and no prompt commit is pending; whenever the
    hidden input exists the same holds; the flag goes up only when an event
    enters an even step; and while the flag is raised or an interval is live
    the text-change handler does nothing. *)
Theorem no_autotype_on_user_steps (es : list Event) :
  let s := run es mount in
  (step s mod 2 = 1 ->
   isTyping s = false /\ intervalId s = None /\ pendingCommits (timeouts s) = 0)
  /\ (inputRendered s = true -> isTyping s = false /\ intervalId s = None)
  /\ (forall e, isTyping s = false -> isTyping (dispatch e s) = true ->
       step (dispatch e s) <> step s /\ step (dispatch e s) mod 2 = 0)
  /\ (isTyping s = true \/ intervalId s <> None ->
      forall value, handleUserInputChange value s = s
                    /\ dispatch (Change value) s = s).
Proof.
  intros s. pose proof (Inv_run es mount Inv_mount) as H. fold s in H.
  assert (Hpar : step s mod 2 = 0 \/ step s mod 2 = 1).
  { pose proof (Nat.mod_upper_bound (step s) 2). lia. }
  assert (Hodd : step s mod 2 = 1 ->
                 isTyping s = false /\ intervalId s = None
                 /\ pendingCommits (timeouts s) = 0).
  { intros E. apply (inv_idle _ H). left. exact E. }
  split; [exact Hodd|]. split; [|split].
  - intros Er. unfold inputRendered in Er.
    destruct Hpar as [E|E]; [|destruct (Hodd E) as (A & B & _); auto].
    apply Nat.eqb_eq in E. rewrite E, andb_false_r in Er. discriminate.
  - intros e. apply typing_raised_on_entering_even_step.
  - intros Hbusy value.
    assert (E : step s mod 2 = 0).
    { destruct Hpar as [E|E]; [exact E|].
      destruct (Hodd E) as (A & B & _). destruct Hbusy; congruence. }
    apply Nat.eqb_eq in E.
    unfold dispatch, inputRendered, handleUserInputChange.
    rewrite E. cbn. rewrite andb_false_r. split; reflexivity.
Qed.

(** ** Answers (C8) *)

(** An answer cell changes only at the confirm that leaves its odd step,
    and what is stored is the trimmed current text. *)
Lemma slot_dispatch j e (s : State) :
  slot j (dispatch e s) <> slot j s ->
  step s = 2 * j + 1 /\ step (dispatch e s) = 2 * j + 2
  /\ slot j (dispatch e s) = Js.trim (currentText s).
Proof.
  destruct j as [|[|[|j]]]; unfold slot; cbn [nth];
    try (destruct j; intros H; exfalso; apply H; reflexivity).
  all: destruct e; brute s; intros Hne; try congruence;
    eqb_facts; subst; cbn in *; try lia; try congruence; auto.
Qed.

Lemma slot_run_fixed j es : forall s : State,
  2 * j + 1 < step s -> slot j (run es s) = slot j s.
Proof.
  induction es as [|e es IH]; intros s H; [reflexivity|].
  change (run (e :: es) s) with (run es (dispatch e s)).
  rewrite IH.
  - destruct (String.eqb_spec (slot j (dispatch e s)) (slot j s)) as [E|E]; auto.
    apply slot_dispatch in E. lia.
  - destruct (step_dispatch e s); lia.
Qed.

Lemma Inv_slot j (s : State) :
  Inv s -> j < 3 -> (slot j s = "" <-> step s < 2 * j + 2).
Proof.
  intros H Hj. destruct j as [|[|[|j]]]; unfold slot; cbn [nth]; try lia.
  - apply (inv_repo _ H).
  - apply (inv_team _ H).
  - apply (inv_leader _ H).
Qed.

Lemma slotChanges_run j es : forall s : State,
  Inv s -> j < 3 ->
  slotChanges j es s + (if 2 * j + 1 <? step s then 1 else 0)
  = (if 2 * j + 1 <? step (run es s) then 1 else 0).
Proof.
  induction es as [|e es IH]; intros s H Hj; [reflexivity|].
  change (run (e :: es) s) with (run es (dispatch e s)).
  pose proof (Inv_dispatch e s H) as H'.
  specialize (IH _ H' Hj).
  pose proof (step_run_mono es (dispatch e s)) as Hmono.
  pose proof (Inv_slot j _ H Hj) as Hs.
  pose proof (Inv_slot j _ H' Hj) as Hs'.
  cbn [slotChanges]. revert IH.
  destruct (String.eqb_spec (slot j (dispatch e s)) (slot j s)) as [E|E].
  - rewrite E in Hs'.
    destruct (Nat.ltb_spec (2 * j + 1) (step s)),
             (Nat.ltb_spec (2 * j + 1) (step (dispatch e s))),
             (Nat.ltb_spec (2 * j + 1) (step (run es (dispatch e s))));
      destruct (step_dispatch e s); intros IH; try lia; exfalso;
      assert (Z : slot j s = "") by (apply Hs; lia); apply Hs' in Z; lia.
  - apply slot_dispatch in E as (E1 & E2 & _).
    destruct (Nat.ltb_spec (2 * j + 1) (step s)),
             (Nat.ltb_spec (2 * j + 1) (step (dispatch e s))),
             (Nat.ltb_spec (2 * j + 1) (step (run es (dispatch e s))));
      lia.
Qed.

(** C8: along any run from mount the value of answer cell [j] changes
    once when the run has passed step [2j+1] and not at all before; the cell
    is empty up to and including step [2j+1]; it changes only at the user
    commit that leaves step [2j+1], which stores the trimmed text; and from
    then on it is non-empty and no sequence of events changes it. *)
Theorem answers_written_once (j : nat) (es : list Event) :
  j < 3 ->
  let s := run es mount in
  slotChanges j es mount = (if 2 * j + 1 <? step s then 1 else 0)
  /\ (step s = 6 -> slotChanges j es mount = 1)
  /\ (step s <= 2 * j + 1 -> slot j s = "")
  /\ (forall e, slot j (dispatch e s) <> slot j s ->
        step s = 2 * j + 1 /\ step (dispatch e s) = 2 * j + 2
        /\ slot j (dispatch e s) = Js.trim (currentText s)
        /\ slot j (dispatch e s) <> "")
  /\ (2 * j + 1 < step s ->
        slot j s <> "" /\ forall es', slot j (run es' s) = slot j s).
Proof.
  intros Hj s. pose proof (Inv_run es mount Inv_mount) as H. fold s in H.
  pose proof (slotChanges_run j es mount Inv_mount Hj) as Hc.
  change (step mount) with 0 in Hc.
  replace (2 * j + 1 <? 0) with false in Hc by (symmetry; apply Nat.ltb_ge; lia).
  rewrite Nat.add_0_r in Hc. fold s in Hc.
  pose proof (Inv_slot j s H Hj) as Hs.
  repeat split.
  - exact Hc.
  - intros E. rewrite Hc, E.
    replace (2 * j + 1 <? 6) with true by (symmetry; apply Nat.ltb_lt; lia).
    reflexivity.
  - intros Hle. apply Hs. lia.
  - apply slot_dispatch in H0. tauto.
  - apply slot_dispatch in H0. tauto.
  - apply slot_dispatch in H0. tauto.
  - pose proof H0 as Hne. apply slot_dispatch in H0 as (E1 & E2 & _).
    pose proof (Inv_slot j _ (Inv_dispatch e s H) Hj) as Hs'.
    intros E. apply Hs' in E. lia.
  - intros E. apply Hs in E. lia.
  - intros es'. apply slot_run_fixed. assumption.
Qed.

Lemma answers_written_once_witness :
  slotChanges 1 (session AtCall "https://github.com/o/r" "team" "lead") mount = 1
  /\ slot 1 finished = "team".
Proof.
  destruct (answers_written_once 1
              (session AtCall "https://github.com/o/r" "team" "lead"))
    as (_ & H & _).
  - lia.
  - split; [apply H|]; vm_compute; reflexivity.
Defined.

(** ** Auto-typing (C7) *)

Lemma prefix_snoc (t : string) :
  forall k, k < String.length t ->
  String.append (substring 0 k t) (Js.charAt t k) = substring 0 (S k) t.
Proof.
  unfold Js.charAt.
  induction t as [|c t IH]; intros k Hk; [change (k < 0) in Hk; lia|].
  destruct k as [|k]; cbn.
  - destruct t; reflexivity.
  - change (S k < S (String.length t)) in Hk. f_equal. apply IH. lia.
Qed.

Lemma prefix_full (t : string) : substring 0 (String.length t) t = t.
Proof.
  induction t as [|c t IH]; [reflexivity|].
  change (String.length (String c t)) with (S (String.length t)).
  cbn. congruence.
Qed.

(** One tick in the middle of a prompt: the index advances, one string is
    appended to the current text, nothing else moves.  The string is the
    character at the index the updater reads. *)
Lemma tick_char r target k (s : State) :
  mounted s = true -> intervalId s = Some (mkAutoType target k) ->
  k < String.length target ->
  let s' := dispatch (Tick r) s in
  mounted s' = true /\ intervalId s' = Some (mkAutoType target (k + 1))
  /\ history s' = history s /\ step s' = step s /\ timeouts s' = timeouts s
  /\ currentText s'
     = String.append (currentText s)
         (Js.charAt target (match r with AtCall => k | AtRender => k + 1 end)).
Proof.
  intros Hm Hi Hk. apply Nat.ltb_lt in Hk.
  unfold dispatch, intervalCallback. rewrite Hi. cbn [targetText charIndex].
  rewrite Hk. destruct s as [h ? ? ? ? m]; destruct h; cbn in *. subst.
  cbn. repeat split; reflexivity.
Qed.

(** The tick after the last character: the interval is cleared, the flag
    is lowered and the commit of the exact prompt is scheduled. *)
Lemma tick_last r target (s : State) :
  mounted s = true ->
  intervalId s = Some (mkAutoType target (String.length target)) ->
  let s' := dispatch (Tick r) s in
  mounted s' = true /\ intervalId s' = None /\ isTyping s' = false
  /\ history s' = history s /\ step s' = step s
  /\ currentText s' = currentText s
  /\ timeouts s' = timeouts s ++ [CommitPrompt target].
Proof.
  intros Hm Hi.
  unfold dispatch, intervalCallback. rewrite Hi. cbn [targetText charIndex].
  rewrite Nat.ltb_irrefl. destruct s as [h ? ? ? ? m]; destruct h; cbn in *.
  subst. cbn. repeat split; reflexivity.
Qed.

(** With every updater applied at call time, [n] ticks extend the typed
    prefix by [n] characters. *)
Lemma ticks_at_call target n :
  forall k (s : State),
  mounted s = true -> intervalId s = Some (mkAutoType target k) ->
  currentText s = substring 0 k target ->
  k + n <= String.length target ->
  let s' := run (repeat (Tick AtCall) n) s in
  mounted s' = true /\ intervalId s' = Some (mkAutoType target (k + n))
  /\ history s' = history s /\ step s' = step s /\ timeouts s' = timeouts s
  /\ currentText s' = substring 0 (k + n) target.
Proof.
  induction n as [|n IH]; intros k s Hm Hi Hc Hk.
  - cbn. rewrite Nat.add_0_r. auto 10.
  - change (run (repeat (Tick AtCall) (S n)) s)
      with (run (repeat (Tick AtCall) n) (dispatch (Tick AtCall) s)).
    destruct (tick_char AtCall target k s Hm Hi) as (Hm' & Hi' & Hh & Hs & Ht & Hc');
      [lia|].
    rewrite Hc, prefix_snoc in Hc' by lia.
    destruct (IH (k + 1) (dispatch (Tick AtCall) s)) as (A & B & C & D & E & F);
      auto; try lia.
    { rewrite Hc'. f_equal. lia. }
    cbv zeta. rewrite A, B, C, D, E, F, Hh, Hs, Ht.
    replace (k + 1 + n) with (k + S n) by lia. auto 10.
Qed.

Lemma nth_error_last {A} (l : list A) (c : A) :
  nth_error (l ++ [c]) (length l) = Some c /\ removeAt (length l) (l ++ [c]) = l.
Proof.
  induction l as [|x l [IH1 IH2]]; cbn; [auto|]. rewrite IH2. auto.
Qed.

(** The settle timeout commits the text it closed over. *)
Lemma commit_appends_target target now (s s1 : State) :
  mounted s1 = true -> timeouts s1 = timeouts s ++ [CommitPrompt target] ->
  let s2 := dispatch (Timeout (length (timeouts s)) now) s1 in
  history s2
  = history s1 ++ [TerminalLine.make (Js.Date_now_toString now) system target]
  /\ step s2 = step s1 + 1.
Proof.
  intros Hm Ht. unfold dispatch. rewrite Ht.
  destruct (nth_error_last (timeouts s) (CommitPrompt target)) as [-> ->].
  unfold commitRender, autoTypeEffect, runCleanup, timeoutCallback.
  destruct s1 as [h ? ? ? ? m]; destruct h; cbn in *. subst. cbn.
  replace (step0 + 1 =? step0) with false by (symmetry; apply Nat.eqb_neq; lia).
  cbn. split_ifs; auto.
Qed.

(** When every updater runs before [charIndex++], an animation that has
    just started types the prompt one character per tick, in order, until
    the current text is the prompt, and the commit that follows appends a
    system line with exactly that prompt. *)
Lemma autotype_at_call_emits_prompt target now (s : State) :
  mounted s = true -> intervalId s = Some (mkAutoType target 0) ->
  currentText s = "" ->
  (forall k, k <= String.length target ->
     currentText (run (repeat (Tick AtCall) k) s) = substring 0 k target
     /\ history (run (repeat (Tick AtCall) k) s) = history s)
  /\ (let s1 := run (repeat (Tick AtCall) (String.length target + 1)) s in
      let s2 := dispatch (Timeout (length (timeouts s)) now) s1 in
      currentText s1 = target /\ isTyping s1 = false /\ history s1 = history s
      /\ history s2
         = history s ++ [TerminalLine.make (Js.Date_now_toString now) system target]
      /\ step s2 = step s + 1).
Proof.
  intros Hm Hi Hc.
  assert (Hc0 : currentText s = substring 0 0 target)
    by (rewrite Hc; destruct target; reflexivity).
  split.
  - intros k Hk.
    destruct (ticks_at_call target k 0 s Hm Hi Hc0) as (_ & _ & A & _ & _ & B); auto.
  - destruct (ticks_at_call target (String.length target) 0 s Hm Hi Hc0)
      as (A & B & C & D & E & F); [lia|].
    cbn [Nat.add] in B, F. rewrite prefix_full in F.
    rewrite repeat_app, run_app.
    set (s0 := run (repeat (Tick AtCall) (String.length target)) s) in *.
    change (run (repeat (Tick AtCall) 1) s0) with (dispatch (Tick AtCall) s0).
    destruct (tick_last AtCall target s0 A B) as (A' & B' & C' & D' & E' & F' & G').
    rewrite E in G'.
    destruct (commit_appends_target target now s _ A' G') as [H1 H2].
    cbv zeta. rewrite H1, H2, F', D', E', F, C, D, C'. auto 10.
Qed.

(** Whatever the timing of the updaters, the animation takes one tick per
    character plus one, touches neither history nor step, and the commit
    appends a system line with exactly the prompt. *)
Lemma ticks_advance target rs :
  forall k (s : State),
  mounted s = true -> intervalId s = Some (mkAutoType target k) ->
  k + length rs <= String.length target ->
  let s' := run (map Tick rs) s in
  mounted s' = true /\ intervalId s' = Some (mkAutoType target (k + length rs))
  /\ history s' = history s /\ step s' = step s /\ timeouts s' = timeouts s.
Proof.
  induction rs as [|r rs IH]; intros k s Hm Hi Hk.
  - cbn. rewrite Nat.add_0_r. auto 10.
  - change (run (map Tick (r :: rs)) s)
      with (run (map Tick rs) (dispatch (Tick r) s)).
    change (length (r :: rs)) with (S (length rs)) in *.
    destruct (tick_char r target k s Hm Hi) as (Hm' & Hi' & Hh & Hs & Ht & _);
      [lia|].
    destruct (IH (k + 1) (dispatch (Tick r) s)) as (A & B & C & D & E);
      auto; try lia.
    cbv zeta. rewrite A, B, C, D, E, Hh, Hs, Ht.
    replace (k + 1 + length rs) with (k + S (length rs)) by lia. auto 10.
Qed.

Lemma autotype_commits_exact_prompt target rs r now (s : State) :
  mounted s = true -> intervalId s = Some (mkAutoType target 0) ->
  length rs = String.length target ->
  let s1 := run (map Tick (rs ++ [r])) s in
  let s2 := dispatch (Timeout (length (timeouts s)) now) s1 in
  intervalId s1 = None /\ isTyping s1 = false /\ history s1 = history s
  /\ timeouts s1 = timeouts s ++ [CommitPrompt target]
  /\ history s2
     = history s ++ [TerminalLine.make (Js.Date_now_toString now) system target]
  /\ step s2 = step s + 1.
Proof.
  intros Hm Hi Hl.
  destruct (ticks_advance target rs 0 s Hm Hi) as (A & B & C & D & E); [lia|].
  cbn [Nat.add] in B. rewrite Hl in B.
  rewrite map_app, run_app.
  set (s0 := run (map Tick rs) s) in *.
  change (run (map Tick [r]) s0) with (dispatch (Tick r) s0).
  destruct (tick_last r target s0 A B) as (A' & B' & C' & D' & E' & F' & G').
  rewrite E in G'.
  destruct (commit_appends_target target now s _ A' G') as [H1 H2].
  cbv zeta. rewrite H1, H2, B', C', D', E', G', C, D. auto 10.
Qed.

(** Entering an even step below 6 starts the animation of that step's
    prompt: interval live at index 0, current text empty, flag raised. *)
Lemma animation_starts e (s : State) :
  Inv s ->
  let s' := dispatch e s in
  step s' <> step s -> step s' mod 2 = 0 -> step s' < 6 ->
  mounted s' = true /\ isTyping s' = true /\ currentText s' = ""
  /\ intervalId s' = Some (mkAutoType (nth (step s' / 2) PROMPTS "") 0).
Proof.
  intros H s'. subst s'. pose proof H as [Hl Hm Hr Ht Hd Hlo Hid Hin Hc].
  destruct e.
  - replace (step (dispatch (Tick r) s)) with (step s) by brute s. tauto.
  - unfold dispatch.
    destruct (nth_error (timeouts s) i) as [c|] eqn:En; [|tauto].
    pose proof (pendingCommits_removeAt _ _ _ En) as Hrm.
    destruct c; cbn in Hrm.
    + assert (Hpar : step s mod 2 <> 1 /\ step s <> 6).
      { split; intros E; destruct Hid as (_ & _ & E'); auto; lia. }
      clear H Hid Hin Hc Hl Hr Ht Hd Hlo Hrm En.
      open_state s. destruct mounted0, effectCleanup0; cbn;
        rewrite ?Nat.eqb_refl; cbn; try tauto.
      all: step_cases step0; cbn in *; lia.
    + unfold commitRender. cbn. rewrite Nat.eqb_refl, andb_false_r. tauto.
  - replace (step (dispatch (Change value) s)) with (step s) by brute s. tauto.
  - unfold dispatch. destruct (inputRendered s) eqn:Er; [|tauto].
    unfold inputRendered in Er.
    clear H Hid Hin Hc Hl Hr Ht Hd Hlo.
    unfold handleKeyDown, commitRender, autoTypeEffect, runCleanup.
    open_state s. destruct mounted0; [|discriminate].
    step_cases step0; cbn in *; try discriminate; try lia.
    all: split_ifs; cbn in *; try discriminate; intros; try lia; try tauto; auto.
  - replace (step (dispatch Click s)) with (step s) by brute s. tauto.
  - replace (step (dispatch Unmount s)) with (step s) by brute s. tauto.
Qed.

(** C7 (the code at the failing input): the updater of line 88 reads
    [charIndex] when React applies it.  With the updater applied at the
    render that follows the callback -- after [charIndex++] on line 89 --
    tick [k] appends [targetText.charAt(k + 1)]: the first character of the
    prompt is never written, the last tick appends the empty string, and at
    no moment of the animation does the current text equal the prompt.  One
    call-time tick followed by deferred ones loses the second character
    instead.  The committed system line is the exact prompt either way. *)
Theorem autotype_deferred_updater_drops_a_character :
  currentText (run (repeat (Tick AtRender) 28) mount)
  = "nter Github Repository Link"
  /\ currentText (run (repeat (Tick AtRender) 27) mount)
     = currentText (run (repeat (Tick AtRender) 28) mount)
  /\ forallb (fun k =>
                negb (currentText (run (repeat (Tick AtRender) k) mount)
                      =? nth 0 PROMPTS "")%string)
             (seq 0 30) = true
  /\ currentText (run (Tick AtCall :: repeat (Tick AtRender) 27) mount)
     = "Eter Github Repository Link"
  /\ map (fun l => (TerminalLine.type l, TerminalLine.text l))
         (history (run (typePrompt AtRender 0) mount))
     = [(system, "Enter Github Repository Link")]
  /\ currentText (run (repeat (Tick AtCall) 28) mount)
     = "Enter Github Repository Link".
Proof. vm_compute. repeat split; reflexivity. Qed.

(** ** End-to-end scenarios of the specification *)

Example end_to_end_session :
  let s := run (session AtCall "1" "2" "3") mount in
  map (fun l => (TerminalLine.type l, TerminalLine.text l)) (history s)
  = [(system, "Enter Github Repository Link"); (user, "1");
     (system, "Enter Team Name"); (user, "2");
     (system, "Enter Team Leader Name"); (user, "3")]
  /\ (repoLink s, teamName s, leaderName s) = ("1", "2", "3")
  /\ isButtonEnabled s = true
  /\ isLoading (dispatch Click s) = true
  /\ timeouts (dispatch Click s) = [AgentStarted "1" "2" "3"]
  /\ console (dispatch (Timeout 0 99) (dispatch Click s)) = [("1", "2", "3")].
Proof. vm_compute. repeat split; reflexivity. Qed.

Example trim_keeps_inner_whitespace :
  Js.trim "  team  rocket " = "team  rocket" /\ Js.trim "   " = "".
Proof. split; reflexivity. Qed.

(** * Beyond the claims *)

(** ** Text input (lines 117-121) *)

(** X1: a text change that reaches the handler replaces the current text
    wholesale and touches nothing else, and of two changes in a row only the
    second one counts. *)
Theorem change_replaces_text (s : State) (v1 v2 : string) :
  inputRendered s = true ->
  currentText (dispatch (Change v2) s) = v2
  /\ dispatch (Change v2) (dispatch (Change v1) s) = dispatch (Change v2) s
  /\ history (dispatch (Change v2) s) = history s
  /\ step (dispatch (Change v2) s) = step s
  /\ (forall j, slot j (dispatch (Change v2) s) = slot j s)
  /\ isTyping (dispatch (Change v2) s) = isTyping s
  /\ timeouts (dispatch (Change v2) s) = timeouts s
  /\ intervalId (dispatch (Change v2) s) = intervalId s.
Proof.
  intros Hr. unfold dispatch, handleUserInputChange, slot.
  rewrite Hr. unfold inputRendered in *.
  destruct s as [h ? ? ? ? m]; destruct h; cbn in *.
  destruct m, isLoading0; cbn in *; rewrite ?andb_false_r in *; try discriminate.
  destruct (step0 mod 2 =? 0) eqn:E; cbn in *; try discriminate.
  rewrite ?E. cbn. repeat split; reflexivity.
Qed.

Lemma change_replaces_text_witness :
  currentText (dispatch (Change "ab") awaitingSecond) = "ab"
  /\ dispatch (Change "ab") (dispatch (Change "a") awaitingSecond)
     = dispatch (Change "ab") awaitingSecond.
Proof.
  destruct (change_replaces_text awaitingSecond "a" "ab") as (H1 & H2 & _).
  - vm_compute. reflexivity.
  - split; [exact H1 | exact H2].
Defined.

(** ** Accepted confirms (lines 123-141) *)

(** X2: an Enter that reaches the handler while no prompt is being typed
    and the trimmed text is non-empty appends one user line whose text is
    the trimmed current text and whose id is the clock value in decimal,
    adds 1 to [step], empties the current text, and stores the trimmed text
    in the answer cell of the step when the step is 1, 3 or 5. *)
Theorem accepted_confirm_commits (s : State) (now : N) :
  inputRendered s = true -> isTyping s = false ->
  Js.trim (currentText s) <> "" ->
  let s' := dispatch (KeyDown "Enter" now) s in
  history s'
  = history s
    ++ [TerminalLine.make (Js.Date_now_toString now) user (Js.trim (currentText s))]
  /\ step s' = step s + 1
  /\ currentText s' = ""
  /\ (forall j, step s = 2 * j + 1 -> j < 3 -> slot j s' = Js.trim (currentText s))
  /\ (forall j, step s <> 2 * j + 1 -> slot j s' = slot j s).
Proof.
  intros Hr Ht Hne s'. subst s'.
  assert (Hg : (0 <? String.length (Js.trim (currentText s))) = true).
  { apply Nat.ltb_lt. destruct (Js.trim (currentText s)); [congruence|].
    change (0 < S (String.length s0)). lia. }
  unfold dispatch, handleKeyDown. rewrite Hr, Ht, Hg.
  change (("Enter" =? "Enter")%string && negb false && true) with true.
  cbv iota. unfold inputRendered in Hr.
  unfold commitRender, autoTypeEffect, runCleanup, slot.
  destruct s as [h ? ? ? ? m]; destruct h; cbn in *.
  destruct m; cbn in *; [|discriminate].
  replace (step0 + 1 =? step0) with false by (symmetry; apply Nat.eqb_neq; lia).
  split_ifs; eqb_facts; repeat split; cbn; auto; intros j Hj; intros;
    try (destruct j as [|[|[|j]]]; cbn; try lia; reflexivity).
Qed.

Lemma accepted_confirm_commits_witness :
  step (dispatch (KeyDown "Enter" 7) (dispatch (Change " a b ") awaitingSecond)) = 4
  /\ teamName (dispatch (KeyDown "Enter" 7) (dispatch (Change " a b ") awaitingSecond))
     = "a b".
Proof.
  destruct (accepted_confirm_commits (dispatch (Change " a b ") awaitingSecond) 7)
    as (_ & H2 & _ & H4 & _).
  - vm_compute. reflexivity.
  - vm_compute. reflexivity.
  - vm_compute. discriminate.
  - split; [exact H2|]. apply (H4 1); [vm_compute; reflexivity | lia].
Defined.

(** ** The current text across steps (lines 84, 105, 138) *)

(** X3: whenever an event changes [step], the current text is empty
    afterwards. *)
Theorem step_change_clears_text (e : Event) (s : State) :
  step (dispatch e s) <> step s -> currentText (dispatch e s) = "".
Proof.
  destruct e; brute s; intros H; try congruence; try reflexivity;
    exfalso; apply H; reflexivity.
Qed.

Lemma step_change_clears_text_witness :
  currentText (dispatch (Timeout 0 3) settling) = "".
Proof.
  apply (step_change_clears_text (Timeout 0 3) settling).
  vm_compute. discriminate.
Defined.

(** ** More about the reachable states *)

Lemma In_removeAt {A} (x : A) (l : list A) :
  forall i, In x (removeAt i l) -> In x l.
Proof.
  induction l as [|y l IH]; intros [|i] H; cbn in *; auto.
  destruct H as [H|H]; eauto.
Qed.

Lemma no_pending_commit (l : list Callback) (t : string) :
  pendingCommits l = 0 -> ~ In (CommitPrompt t) l.
Proof.
  unfold pendingCommits. induction l as [|c l IH]; cbn; [tauto|].
  destruct c; cbn; intros H [E|E]; try discriminate H; try discriminate E;
    exact (IH H E).
Qed.

Lemma no_pending_agent (l : list Callback) r t d :
  pendingAgents l = 0 -> ~ In (AgentStarted r t d) l.
Proof.
  unfold pendingAgents. induction l as [|c l IH]; cbn; [tauto|].
  destruct c; cbn; intros H [E|E]; try discriminate H; try discriminate E;
    exact (IH H E).
Qed.

Lemma pendingAgents_app (l : list Callback) (c : Callback) :
  pendingAgents (l ++ [c]) = pendingAgents l + (if isCommit c then 0 else 1).
Proof.
  unfold pendingAgents. rewrite filter_app, length_app. cbn.
  destruct (isCommit c); reflexivity.
Qed.

Lemma pendingAgents_removeAt (l : list Callback) :
  forall i c, nth_error l i = Some c ->
  pendingAgents l = (if isCommit c then 0 else 1) + pendingAgents (removeAt i l).
Proof.
  unfold pendingAgents.
  induction l as [|x l IH]; intros [|i] c H; cbn in H; try discriminate.
  - injection H as ->. cbn. destruct (isCommit c); reflexivity.
  - specialize (IH _ _ H). cbn. destruct (isCommit x), (isCommit c); cbn in *; lia.
Qed.

Lemma pending_commit_exists (l : list Callback) :
  0 < pendingCommits l -> exists i t, nth_error l i = Some (CommitPrompt t).
Proof.
  unfold pendingCommits. induction l as [|c l IH]; cbn; [lia|].
  destruct c as [t|r t d]; cbn; intros H.
  - exists 0, t. reflexivity.
  - destruct (IH H) as (i & t' & E). exists (S i), t'. exact E.
Qed.

#[local] Arguments pendingAgents : simpl never.

Lemma InvH_mount : InvH mount.
Proof.
  constructor; cbn.
  - reflexivity.
  - intros a E. injection E as <-. cbn. split; [reflexivity|].
    change (0 <= String.length "Enter Github Repository Link"). lia.
  - tauto.
Qed.

Lemma InvH_Tick r s : Inv s -> InvH s -> InvH (dispatch (Tick r) s).
Proof.
  intros HI [Hh Hi Hc].
  unfold dispatch, intervalCallback.
  destruct (intervalId s) as [a|] eqn:Ei; [|constructor; rewrite ?Ei; auto; discriminate].
  destruct (inv_interval _ HI) as (Hm & _); [congruence|].
  destruct (Hi a eq_refl) as [Ht Hk].
  destruct (charIndex a <? String.length (targetText a)) eqn:El.
  - apply Nat.ltb_lt in El.
    open_state s. subst_bools. cbn.
    constructor; cbn; auto.
    intros a' E. injection E as <-. cbn. split; [exact Ht|lia].
  - open_state s. subst_bools. unfold setTimeout. cbn.
    constructor; cbn; auto; [discriminate|].
    intros t Hin. apply in_app_or in Hin as [Hin|[Hin|[]]]; auto.
    injection Hin as <-. exact Ht.
Qed.

Lemma InvH_Timeout i now s : Inv s -> InvH s -> InvH (dispatch (Timeout i now) s).
Proof.
  intros HI [Hh Hi Hc]. pose proof HI as [Hl Hm Hr Ht Hd Hlo Hid Hin Hcm].
  unfold dispatch.
  destruct (nth_error (timeouts s) i) as [c|] eqn:En; [|constructor; assumption].
  pose proof (pendingCommits_removeAt _ _ _ En) as Hrm.
  destruct c as [target|repo team leader]; cbn in Hrm.
  - assert (Hp' : pendingCommits (removeAt i (timeouts s)) = 0) by lia.
    assert (Hiv : intervalId s = None).
    { destruct (intervalId s); [|reflexivity].
      destruct Hin as (_ & _ & _ & E); [discriminate|lia]. }
    assert (Hpar : step s mod 2 <> 1 /\ step s <> 6).
    { split; intros E; destruct Hid as (_ & _ & E'); auto; lia. }
    assert (Htg : target = nth (step s / 2) PROMPTS "")
      by (apply Hc; eapply nth_error_In; eassumption).
    clear Hrm En Hid Hin Hcm HI Hi Hc Hlo Hl.
    open_state s. subst_bools.
    destruct mounted0, effectCleanup0.
    all: try solve [cbn; constructor; cbn; auto;
                    [discriminate | intros t Hx; exfalso;
                                    eapply no_pending_commit; eassumption]].
    all: step_cases step0; cbn in *; try lia; subst target;
      constructor; cbn; rewrite ?map_app, ?Hh; try reflexivity; try discriminate;
      intros t Hx; exfalso; eapply no_pending_commit; eassumption.
  - open_state s. unfold commitRender; cbn.
    rewrite Nat.eqb_refl, andb_false_r.
    constructor; cbn; auto.
    intros t Hx. apply Hc. eapply In_removeAt; eassumption.
Qed.

Lemma InvH_Change value s : InvH s -> InvH (dispatch (Change value) s).
Proof.
  intros H. pose proof H as [Hh Hi Hc].
  unfold dispatch, inputRendered, handleUserInputChange.
  destruct (mounted s) eqn:Em; cbn; [|assumption].
  destruct (negb (step s mod 2 =? 0)) eqn:Ep; cbn; [|assumption].
  destruct (isLoading s) eqn:El; cbn; [assumption|].
  clear H. open_state s. subst_bools. constructor; cbn; auto.
Qed.

Lemma InvH_KeyDown key now s : Inv s -> InvH s -> InvH (dispatch (KeyDown key now) s).
Proof.
  intros HI H. pose proof H as [Hh Hi Hc].
  pose proof HI as [Hl Hm Hr Ht Hd Hlo Hid Hin Hcm].
  unfold dispatch, handleKeyDown.
  destruct (inputRendered s) eqn:Er; [|assumption].
  destruct ((key =? "Enter")%string && negb (isTyping s)
            && (0 <? String.length (Js.trim (currentText s)))) eqn:Eg.
  2:{ unfold commitRender. rewrite Nat.eqb_refl, andb_false_r. assumption. }
  unfold inputRendered in Er. clear H HI Eg Hi Hlo Hin Hcm Hl Hr Ht Hd.
  open_state s.
  destruct mounted0, isLoading0; cbn in Er; rewrite ?andb_false_r in Er;
    try discriminate.
  step_cases step0; cbn in Er; try discriminate; try lia.
  all: destruct Hid as (Hty & Hiv & Hp); [cbn; auto|]; subst_bools.
  all: destruct effectCleanup0; cbn; constructor; cbn;
    rewrite ?map_app, ?Hh; try reflexivity; try discriminate;
    try (intros a E; injection E as <-; cbn; split; [reflexivity|];
         match goal with |- 0 <= String.length ?t => change (0 <= String.length t); lia end);
    intros t Hx; exfalso; eapply no_pending_commit; eassumption.
Qed.

Lemma InvH_Click s : InvH s -> InvH (dispatch Click s).
Proof.
  intros H. pose proof H as [Hh Hi Hc].
  unfold dispatch, handleRunAgent.
  destruct (buttonClickable s) eqn:Eb; [|assumption].
  destruct ((step s =? 6) && Js.truthy (repoLink s) && Js.truthy (teamName s)
            && Js.truthy (leaderName s)); [|assumption].
  unfold buttonClickable in Eb. apply andb_prop in Eb as [Em _].
  clear H. open_state s. subst_bools. unfold setTimeout; cbn.
  constructor; cbn; auto.
  intros t Hx. apply in_app_or in Hx as [Hx|[Hx|[]]]; auto. discriminate Hx.
Qed.

Lemma InvH_Unmount s : InvH s -> InvH (dispatch Unmount s).
Proof.
  intros H. pose proof H as [Hh Hi Hc].
  unfold dispatch, runCleanup.
  destruct (mounted s) eqn:Em; [|assumption].
  clear H. open_state s. subst_bools.
  destruct effectCleanup0; cbn; constructor; cbn; auto; discriminate.
Qed.

Lemma InvH_run es : forall s, Inv s -> InvH s -> InvH (run es s).
Proof.
  induction es as [|e es IH]; intros s HI H; [exact H|].
  change (run (e :: es) s) with (run es (dispatch e s)).
  apply IH; [apply Inv_dispatch, HI|].
  destruct e; auto using InvH_Tick, InvH_Timeout, InvH_Change, InvH_KeyDown,
    InvH_Click, InvH_Unmount.
Qed.

Lemma InvA_mount : InvA mount.
Proof. constructor; cbn; tauto. Qed.

Lemma commitRender_agent p (s : State) :
  timeouts (commitRender p s) = timeouts s
  /\ console (commitRender p s) = console s
  /\ isLoading (commitRender p s) = isLoading s
  /\ repoLink (commitRender p s) = repoLink s
  /\ teamName (commitRender p s) = teamName s
  /\ leaderName (commitRender p s) = leaderName s.
Proof.
  unfold commitRender, autoTypeEffect, runCleanup.
  destruct s as [h ? ? ? ? m]; destruct h; destruct m; cbn;
    split_ifs; auto 10.
Qed.

Lemma InvA_intro (s s' : State) :
  InvA s ->
  isLoading s' = isLoading s -> repoLink s' = repoLink s ->
  teamName s' = teamName s -> leaderName s' = leaderName s ->
  console s' = console s ->
  pendingAgents (timeouts s') = pendingAgents (timeouts s) ->
  (forall c, In c (timeouts s') -> isCommit c = false -> In c (timeouts s)) ->
  InvA s'.
Proof.
  intros [Hn Ha Hc] El Er Et Ed Eco Ep Hin.
  constructor; rewrite ?El, ?Er, ?Et, ?Ed, ?Eco, ?Ep; auto.
  all: intros r t l Hx; apply Ha, Hin; auto.
Qed.

Lemma InvA_Tick r s : InvA s -> InvA (dispatch (Tick r) s).
Proof.
  intros H. apply (InvA_intro s); auto; try solve [brute s].
  - unfold dispatch, intervalCallback.
    destruct (intervalId s) as [a|]; [|reflexivity].
    destruct (charIndex a <? String.length (targetText a)).
    + destruct s as [h ? ? ? ? m]; destruct h; destruct m; reflexivity.
    + replace (timeouts _) with (timeouts s ++ [CommitPrompt (targetText a)])
        by (destruct s as [h ? ? ? ? m]; destruct h; destruct m; reflexivity).
      rewrite pendingAgents_app. cbn. lia.
  - intros c. unfold dispatch, intervalCallback.
    destruct (intervalId s) as [a|]; [|auto].
    destruct (charIndex a <? String.length (targetText a)).
    + destruct s as [h ? ? ? ? m]; destruct h; destruct m; auto.
    + replace (timeouts _) with (timeouts s ++ [CommitPrompt (targetText a)])
        by (destruct s as [h ? ? ? ? m]; destruct h; destruct m; reflexivity).
      intros Hx Hc. apply in_app_or in Hx as [Hx|[Hx|[]]]; auto.
      subst c. discriminate Hc.
Qed.

Lemma InvA_Timeout i now s : InvA s -> InvA (dispatch (Timeout i now) s).
Proof.
  intros H. unfold dispatch.
  destruct (nth_error (timeouts s) i) as [c|] eqn:En; [|assumption].
  pose proof (pendingAgents_removeAt _ _ _ En) as Hrm.
  destruct (commitRender_agent (step s)
              (timeoutCallback c now (withTimeouts (removeAt i (timeouts s)) s)))
    as (E1 & E2 & E3 & E4 & E5 & E6).
  destruct c as [target|repo team leader]; cbn in Hrm.
  - apply (InvA_intro s); auto; rewrite ?E1, ?E2, ?E3, ?E4, ?E5, ?E6;
      try solve [destruct s as [h ? ? ? ? m]; destruct h; destruct m; reflexivity].
    + replace (timeouts _) with (removeAt i (timeouts s))
        by (destruct s as [h ? ? ? ? m]; destruct h; destruct m; reflexivity).
      lia.
    + intros c.
      replace (timeouts _) with (removeAt i (timeouts s))
        by (destruct s as [h ? ? ? ? m]; destruct h; destruct m; reflexivity).
      intros Hx _. eapply In_removeAt; eassumption.
  - destruct H as [Hn Ha Hc].
    assert (Hx : (repo, team, leader) = (repoLink s, teamName s, leaderName s))
      by (apply Ha; eapply nth_error_In; eassumption).
    constructor; rewrite ?E1, ?E2, ?E3, ?E4, ?E5, ?E6; cbn.
    + rewrite length_app. cbn. lia.
    + intros r t l Hin. apply Ha. eapply In_removeAt; eassumption.
    + intros x Hin. apply in_app_or in Hin as [Hin|[Hin|[]]]; auto.
      subst x. exact Hx.
Qed.

Lemma InvA_Change value s : InvA s -> InvA (dispatch (Change value) s).
Proof.
  intros H. apply (InvA_intro s); auto; brute s.
Qed.

Lemma InvA_KeyDown key now s : InvA s -> InvA (dispatch (KeyDown key now) s).
Proof.
  intros H. unfold dispatch.
  destruct (inputRendered s) eqn:Er; [|assumption].
  destruct (commitRender_agent (step s) (handleKeyDown key now s))
    as (E1 & E2 & E3 & E4 & E5 & E6).
  assert (Hl : isLoading s = false).
  { unfold inputRendered in Er. destruct (isLoading s); [|reflexivity].
    rewrite andb_false_r in Er. discriminate. }
  destruct H as [Hn Ha Hc]. rewrite Hl in Hn.
  assert (Et : timeouts (handleKeyDown key now s) = timeouts s)
    by (unfold handleKeyDown; destruct s as [h ? ? ? ? m]; destruct h; destruct m;
        cbn; split_ifs; reflexivity).
  assert (Eo : console (handleKeyDown key now s) = console s)
    by (unfold handleKeyDown; destruct s as [h ? ? ? ? m]; destruct h; destruct m;
        cbn; split_ifs; reflexivity).
  assert (El : isLoading (handleKeyDown key now s) = isLoading s)
    by (unfold handleKeyDown; destruct s as [h ? ? ? ? m]; destruct h; destruct m;
        cbn; split_ifs; reflexivity).
  constructor; rewrite ?E1, ?E2, ?E3, ?Et, ?Eo, ?El, ?Hl.
  - exact Hn.
  - intros r t l Hx. exfalso. eapply no_pending_agent; [|exact Hx]. lia.
  - intros x Hx. destruct (console s); [destruct Hx|cbn in Hn; lia].
Qed.

Lemma InvA_Click s : InvA s -> InvA (dispatch Click s).
Proof.
  intros H. unfold dispatch.
  destruct (buttonClickable s) eqn:Eb; [|assumption].
  unfold buttonClickable in Eb. apply andb_prop in Eb as [Em Ee].
  apply isButtonEnabled_spec in Ee as (H6 & Hl & Hr & Ht & Hd).
  unfold handleRunAgent.
  apply Nat.eqb_eq in H6. apply truthy_nonempty in Hr, Ht, Hd.
  rewrite H6, Hr, Ht, Hd. cbn.
  destruct H as [Hn Ha Hc]. rewrite Hl in Hn.
  destruct s as [h ? ? ? ? m]; destruct h; cbn in *. subst.
  unfold setTimeout. cbn.
  constructor; cbn.
  - rewrite pendingAgents_app. cbn. lia.
  - intros r t l Hx. apply in_app_or in Hx as [Hx|[Hx|[]]]; auto.
    injection Hx as <- <- <-. reflexivity.
  - intros x Hx. auto.
Qed.

Lemma InvA_Unmount s : InvA s -> InvA (dispatch Unmount s).
Proof.
  intros H. apply (InvA_intro s); auto; brute s.
Qed.

Lemma InvA_run es : forall s, InvA s -> InvA (run es s).
Proof.
  induction es as [|e es IH]; intros s H; [exact H|].
  change (run (e :: es) s) with (run es (dispatch e s)).
  apply IH.
  destruct e; auto using InvA_Tick, InvA_Timeout, InvA_Change, InvA_KeyDown,
    InvA_Click, InvA_Unmount.
Qed.

Lemma InvL_mount : InvL mount.
Proof. constructor; cbn; intros; left + idtac; discriminate. Qed.

Lemma InvL_Tick r s : Inv s -> InvL s -> InvL (dispatch (Tick r) s).
Proof.
  intros HI [Hv Hf]. pose proof HI as [Hl Hm Hr Ht Hd Hlo Hid Hin Hc].
  unfold dispatch, intervalCallback.
  destruct (intervalId s) as [a|] eqn:Ei; [|constructor; rewrite ?Ei; assumption].
  destruct Hin as (Hmo & Hcl & Hty & Hp); [congruence|].
  open_state s. subst_bools.
  destruct (charIndex a <? String.length (targetText a)); cbn.
  - constructor; cbn; intros; try left; discriminate.
  - unfold setTimeout; cbn.
    constructor; cbn; rewrite ?pendingCommits_app, ?Hp; intros;
      try discriminate. right. reflexivity.
Qed.

Lemma InvL_Timeout i now s : Inv s -> InvL s -> InvL (dispatch (Timeout i now) s).
Proof.
  intros HI [Hv Hf]. pose proof HI as [Hl Hm Hr Ht Hd Hlo Hid Hin Hc].
  unfold dispatch.
  destruct (nth_error (timeouts s) i) as [c|] eqn:En; [|constructor; assumption].
  pose proof (pendingCommits_removeAt _ _ _ En) as Hrm.
  destruct c as [target|repo team leader]; cbn in Hrm.
  - assert (Hty : isTyping s = false) by (apply Hc; lia).
    assert (Hiv : intervalId s = None).
    { destruct (intervalId s); [|reflexivity].
      destruct Hin as (_ & _ & _ & E); [discriminate|lia]. }
    assert (Hpar : step s mod 2 <> 1 /\ step s <> 6).
    { split; intros E; destruct Hid as (_ & _ & E'); auto; lia. }
    clear Hrm En Hid Hin Hc HI Hlo Hl Hv Hf Hr Ht Hd.
    open_state s. subst_bools.
    destruct mounted0, effectCleanup0.
    all: try solve [cbn; constructor; cbn; intros; discriminate].
    all: step_cases step0; cbn in *; try lia;
      constructor; cbn; intros; discriminate.
  - open_state s. unfold commitRender; cbn.
    rewrite Nat.eqb_refl, andb_false_r.
    constructor; cbn; rewrite <- ?Hrm; auto.
Qed.

Lemma InvL_Change value s : InvL s -> InvL (dispatch (Change value) s).
Proof.
  intros H. pose proof H as [Hv Hf].
  unfold dispatch, inputRendered, handleUserInputChange.
  destruct (mounted s) eqn:Em; cbn; [|assumption].
  destruct (negb (step s mod 2 =? 0)) eqn:Ep; cbn; [|assumption].
  destruct (isLoading s) eqn:El; cbn; [assumption|].
  clear H. open_state s. subst_bools. constructor; cbn; auto.
Qed.

Lemma InvL_KeyDown key now s : Inv s -> InvL s -> InvL (dispatch (KeyDown key now) s).
Proof.
  intros HI H. pose proof H as [Hv Hf].
  pose proof HI as [Hl Hm Hr Ht Hd Hlo Hid Hin Hcm].
  unfold dispatch, handleKeyDown.
  destruct (inputRendered s) eqn:Er; [|assumption].
  destruct ((key =? "Enter")%string && negb (isTyping s)
            && (0 <? String.length (Js.trim (currentText s)))) eqn:Eg.
  2:{ unfold commitRender. rewrite Nat.eqb_refl, andb_false_r. assumption. }
  unfold inputRendered in Er. clear H HI Eg Hlo Hin Hcm Hl Hr Ht Hd Hv Hf.
  open_state s.
  destruct mounted0, isLoading0; cbn in Er; rewrite ?andb_false_r in Er;
    try discriminate.
  step_cases step0; cbn in Er; try discriminate; try lia.
  all: destruct Hid as (Hty & Hiv & Hp); [cbn; auto|]; subst_bools.
  all: destruct effectCleanup0; cbn; constructor; cbn; intros;
    try lia; try discriminate; left; discriminate.
Qed.

Lemma InvL_Click s : InvL s -> InvL (dispatch Click s).
Proof.
  intros H. pose proof H as [Hv Hf].
  unfold dispatch, handleRunAgent.
  destruct (buttonClickable s) eqn:Eb; [|assumption].
  destruct ((step s =? 6) && Js.truthy (repoLink s) && Js.truthy (teamName s)
            && Js.truthy (leaderName s)); [|assumption].
  unfold buttonClickable in Eb. apply andb_prop in Eb as [Em _].
  clear H. open_state s. subst_bools. unfold setTimeout; cbn.
  constructor; cbn; rewrite ?pendingCommits_app; cbn; rewrite ?Nat.add_0_r; auto.
Qed.

Lemma InvL_Unmount s : InvL s -> InvL (dispatch Unmount s).
Proof.
  intros H. unfold dispatch.
  destruct (mounted s) eqn:Em; [|assumption].
  constructor; cbn; intros; discriminate.
Qed.

Lemma InvL_run es : forall s, Inv s -> InvL s -> InvL (run es s).
Proof.
  induction es as [|e es IH]; intros s HI H; [exact H|].
  change (run (e :: es) s) with (run es (dispatch e s)).
  apply IH; [apply Inv_dispatch, HI|].
  destruct e; auto using InvL_Tick, InvL_Timeout, InvL_Change, InvL_KeyDown,
    InvL_Click, InvL_Unmount.
Qed.

(** ** Trimmed text *)

Lemma trimEnd_idem (s : string) : Js.trimEnd (Js.trimEnd s) = Js.trimEnd s.
Proof.
  induction s as [|c r IH]; [reflexivity|].
  cbn [Js.trimEnd]. destruct (Js.trimEnd r) as [|d t] eqn:E.
  - destruct (Js.isWhiteSpace c) eqn:Ec; [reflexivity|].
    cbn [Js.trimEnd]. rewrite Ec. reflexivity.
  - cbn [Js.trimEnd] in *. rewrite IH. reflexivity.
Qed.

Lemma trimStart_head (s : string) :
  match Js.trimStart s with
  | EmptyString => True
  | String c _ => Js.isWhiteSpace c = false
  end.
Proof.
  induction s as [|c r IH]; cbn [Js.trimStart]; [exact I|].
  destruct (Js.isWhiteSpace c) eqn:Ec; [exact IH|exact Ec].
Qed.

Lemma trimEnd_keeps_head (c : ascii) (r : string) :
  Js.isWhiteSpace c = false -> exists r', Js.trimEnd (String c r) = String c r'.
Proof.
  intros Ec. cbn [Js.trimEnd]. destruct (Js.trimEnd r) as [|d t].
  - rewrite Ec. eauto.
  - eauto.
Qed.

Lemma trim_idem (s : string) : Js.trim (Js.trim s) = Js.trim s.
Proof.
  unfold Js.trim. pose proof (trimStart_head s) as H.
  destruct (Js.trimStart s) as [|c r]; [reflexivity|].
  destruct (trimEnd_keeps_head c r H) as [r' E].
  rewrite E. cbn [Js.trimStart]. rewrite H, <- E. apply trimEnd_idem.
Qed.

Lemma trimmed_slots_dispatch e (s : State) :
  (forall j, Js.trim (slot j s) = slot j s) ->
  forall j, Js.trim (slot j (dispatch e s)) = slot j (dispatch e s).
Proof.
  intros H j.
  destruct (String.eqb_spec (slot j (dispatch e s)) (slot j s)) as [E|E].
  - rewrite E. apply H.
  - apply slot_dispatch in E as (_ & _ & ->). apply trim_idem.
Qed.

Lemma trimmed_slots_run es : forall s : State,
  (forall j, Js.trim (slot j s) = slot j s) ->
  forall j, Js.trim (slot j (run es s)) = slot j (run es s).
Proof.
  induction es as [|e es IH]; intros s H; [exact H|].
  change (run (e :: es) s) with (run es (dispatch e s)).
  apply IH, trimmed_slots_dispatch, H.
Qed.

Lemma trimmed_slots_mount : forall j, Js.trim (slot j mount) = slot j mount.
Proof. intros [|[|[|j]]]; try reflexivity. destruct j; reflexivity. Qed.

(** ** Progress *)

Lemma mounted_dispatch e (s : State) :
  e <> Unmount -> mounted (dispatch e s) = mounted s.
Proof.
  intros H. destruct e; try congruence; brute s.
Qed.

Lemma mounted_run_ticks rs : forall s : State,
  mounted (run (map Tick rs) s) = mounted s.
Proof.
  induction rs as [|r rs IH]; intros s; [reflexivity|].
  change (run (map Tick (r :: rs)) s) with (run (map Tick rs) (dispatch (Tick r) s)).
  rewrite IH. apply mounted_dispatch. discriminate.
Qed.

Lemma commit_fires i t now (s : State) :
  mounted s = true -> nth_error (timeouts s) i = Some (CommitPrompt t) ->
  step (dispatch (Timeout i now) s) = step s + 1.
Proof.
  intros Hm En. unfold dispatch. rewrite En.
  unfold commitRender, autoTypeEffect, runCleanup, timeoutCallback.
  destruct s as [h ? ? ? ? m]; destruct h; cbn in *. subst. cbn.
  split_ifs; reflexivity.
Qed.

Lemma answer_advances (s : State) :
  inputRendered s = true -> isTyping s = false ->
  step (run [Change "a"; KeyDown "Enter" 0] s) = step s + 1
  /\ mounted (run [Change "a"; KeyDown "Enter" 0] s) = true.
Proof.
  intros Hr Ht. unfold inputRendered in Hr.
  destruct s as [h ? ? ? ? m]; destruct h; cbn in Hr, Ht. subst.
  destruct m, isLoading0; cbn in Hr; rewrite ?andb_false_r in Hr;
    try discriminate.
  unfold run, fold_left, dispatch, inputRendered, handleUserInputChange,
    handleKeyDown, commitRender, autoTypeEffect, runCleanup.
  cbn. destruct (step0 mod 2 =? 0) eqn:E; [discriminate|]. cbn. rewrite E. cbn.
  change (Js.trim "a") with "a".
  change (0 <? String.length "a") with true.
  change ("Enter" =? "Enter")%string with true. cbn.
  replace (step0 + 1 =? step0) with false by (symmetry; apply Nat.eqb_neq; lia).
  cbn. split_ifs; auto.
Qed.

Lemma advance (s : State) :
  Inv s -> InvH s -> InvL s -> mounted s = true -> step s < 6 ->
  exists es, step (run es s) = step s + 1 /\ mounted (run es s) = true.
Proof.
  intros HI HH HL Hm Hs.
  destruct (Nat.eq_dec (step s mod 2) 0) as [Ev|Od].
  - destruct (intervalId s) as [a|] eqn:Ei.
    + destruct (invh_interval _ HH a Ei) as [_ Hk].
      destruct a as [target k]. cbn in Hk.
      set (rs := repeat AtCall (String.length target - k)).
      assert (Hlen : k + length rs = String.length target)
        by (unfold rs; rewrite repeat_length; lia).
      destruct (ticks_advance target rs k s Hm Ei) as (A & B & _ & D & E); [lia|].
      rewrite Hlen in B.
      set (s0 := run (map Tick rs) s) in *.
      destruct (tick_last AtCall target s0 A B) as (A' & _ & _ & _ & E' & _ & G').
      destruct (commit_appends_target target 0%N s0 _ A' G') as [_ H2].
      exists (map Tick rs ++ [Tick AtCall; Timeout (length (timeouts s0)) 0]).
      rewrite run_app. fold s0.
      change (run [Tick AtCall; Timeout (length (timeouts s0)) 0] s0)
        with (dispatch (Timeout (length (timeouts s0)) 0) (dispatch (Tick AtCall) s0)).
      rewrite H2, E', D. split; [reflexivity|].
      rewrite mounted_dispatch by discriminate. exact A'.
    + destruct (invl_live _ HL Hm Ev Hs) as [C|C]; [congruence|].
      destruct (pending_commit_exists (timeouts s)) as (i & t & En); [lia|].
      exists [Timeout i 0].
      change (run [Timeout i 0] s) with (dispatch (Timeout i 0) s). split.
      * eapply commit_fires; eassumption.
      * rewrite mounted_dispatch by discriminate. exact Hm.
  - assert (Ho : step s mod 2 = 1)
      by (pose proof (Nat.mod_upper_bound (step s) 2); lia).
    destruct (inv_idle _ HI (or_introl Ho)) as (Ht & _ & _).
    exists [Change "a"; KeyDown "Enter" 0].
    apply answer_advances; [|exact Ht].
    unfold inputRendered. rewrite Hm.
    replace (step s mod 2 =? 0) with false by (symmetry; apply Nat.eqb_neq; lia).
    destruct (isLoading s) eqn:El; [|reflexivity].
    pose proof (inv_loading _ HI El). lia.
Qed.

Lemma completion n : forall s : State,
  Inv s -> InvH s -> InvL s -> mounted s = true -> step s + n = 6 ->
  exists es, step (run es s) = 6 /\ mounted (run es s) = true.
Proof.
  induction n as [|n IH]; intros s HI HH HL Hm Hs.
  - exists []. cbn. split; [lia|exact Hm].
  - destruct (advance s HI HH HL Hm) as (es1 & E1 & M1); [lia|].
    destruct (IH (run es1 s)) as (es2 & E2 & M2); auto.
    + apply Inv_run, HI.
    + apply InvH_run; assumption.
    + apply InvL_run; assumption.
    + lia.
    + exists (es1 ++ es2). rewrite run_app. auto.
Qed.

(** ** History content (lines 100-106, 133-139) *)

(** X4: in every reachable state the committed lines are, in order, the
    first [step] lines of: prompt 1, answer 1, prompt 2, answer 2, prompt 3,
    answer 3, with the answers as stored in the cells; at step 6 history is
    exactly these six lines. *)
Theorem history_follows_script (es : list Event) :
  let s := run es mount in
  map view (history s) = firstn (step s) (script s)
  /\ (step s = 6 -> map view (history s) = script s)
  /\ (forall i l, nth_error (history s) i = Some l ->
        TerminalLine.type l = if i mod 2 =? 0 then system else user).
Proof.
  intros s.
  pose proof (Inv_run es mount Inv_mount) as HI.
  pose proof (InvH_run es mount Inv_mount InvH_mount) as HH.
  fold s in HI, HH. pose proof (invh_hist _ HH) as Hh.
  split; [exact Hh|]. split.
  - intros E. rewrite Hh, E. reflexivity.
  - intros i l Hn.
    assert (Hv : nth_error (map view (history s)) i = Some (view l))
      by (rewrite nth_error_map, Hn; reflexivity).
    rewrite Hh, nth_error_firstn in Hv.
    destruct (i <? step s); [|discriminate Hv].
    unfold script in Hv.
    do 6 (destruct i as [|i];
          [injection Hv as Hv _; symmetry; exact Hv|]).
    destruct i; discriminate Hv.
Qed.

(** ** Stored text is trimmed (lines 124-136) *)

(** X5: in every reachable state each answer cell holds text that trimming
    leaves unchanged, and every user line of history has non-empty text that
    trimming leaves unchanged. *)
Theorem stored_text_is_trimmed (es : list Event) :
  let s := run es mount in
  (forall j, Js.trim (slot j s) = slot j s)
  /\ Forall (fun p => fst p = user -> Js.trim (snd p) = snd p /\ snd p <> "")
            (map view (history s)).
Proof.
  intros s.
  pose proof (Inv_run es mount Inv_mount) as HI.
  pose proof (InvH_run es mount Inv_mount InvH_mount) as HH.
  pose proof (trimmed_slots_run es mount trimmed_slots_mount) as HT.
  fold s in HI, HH, HT. split; [exact HT|].
  rewrite (invh_hist _ HH).
  pose proof (inv_max _ HI) as Hm. pose proof (inv_repo _ HI) as Hr.
  pose proof (inv_team _ HI) as Ht. pose proof (inv_leader _ HI) as Hd.
  pose proof (HT 0) as T0. pose proof (HT 1) as T1. pose proof (HT 2) as T2.
  unfold slot in T0, T1, T2. cbn [nth] in T0, T1, T2. unfold script.
  apply Forall_forall. intros p Hin Hu.
  destruct (step s) as [|[|[|[|[|[|[|k]]]]]]]; [| | | | | | |lia];
    cbn [firstn In] in Hin;
    repeat match goal with
           | H : _ \/ _ |- _ => destruct H as [H|H]
           end;
    try contradiction; subst p; cbn [fst snd] in *; try discriminate Hu;
    (split; [assumption|]); intros E;
    first [apply Hr in E; lia | apply Ht in E; lia | apply Hd in E; lia].
Qed.

(** ** Animation timers (lines 77-113) *)

(** X6: in every reachable state at most one prompt commit is pending, a
    live interval and a pending commit never coexist, and whichever is
    outstanding belongs to the prompt of the current step, which is even and
    below 6; the character index of a live interval never passes the length
    of its prompt. *)
Theorem one_animation_timer_at_a_time (es : list Event) :
  let s := run es mount in
  pendingCommits (timeouts s) <= 1
  /\ (intervalId s <> None -> pendingCommits (timeouts s) = 0)
  /\ (forall a, intervalId s = Some a ->
        targetText a = nth (step s / 2) PROMPTS ""
        /\ charIndex a <= String.length (targetText a)
        /\ step s mod 2 = 0 /\ step s < 6)
  /\ (forall t, In (CommitPrompt t) (timeouts s) ->
        t = nth (step s / 2) PROMPTS "" /\ step s mod 2 = 0 /\ step s < 6).
Proof.
  intros s.
  pose proof (Inv_run es mount Inv_mount) as HI.
  pose proof (InvH_run es mount Inv_mount InvH_mount) as HH.
  fold s in HI, HH.
  assert (Hpar : forall P : Prop,
            (step s mod 2 = 1 \/ step s = 6 -> P -> False) -> P ->
            step s mod 2 = 0 /\ step s < 6).
  { intros P HP p. pose proof (inv_max _ HI).
    pose proof (Nat.mod_upper_bound (step s) 2).
    assert (~ (step s mod 2 = 1 \/ step s = 6)) by (intros X; exact (HP X p)).
    lia. }
  split; [apply (inv_commit _ HI)|]. split; [|split].
  - intros Hi. apply (inv_interval _ HI Hi).
  - intros a Ei. destruct (invh_interval _ HH a Ei) as [A B].
    split; [exact A|]. split; [exact B|].
    apply (Hpar (intervalId s = Some a)); auto.
    intros X E. destruct (inv_idle _ HI X) as (_ & N & _). congruence.
  - intros t Hin. split; [apply (invh_commit _ HH t Hin)|].
    apply (Hpar (In (CommitPrompt t) (timeouts s))); auto.
    intros X E. destruct (inv_idle _ HI X) as (_ & _ & N).
    exact (no_pending_commit _ t N E).
Qed.

(** X7: while the component is mounted the typing flag is raised exactly
    when the interval is live. *)
Theorem typing_flag_tracks_interval (es : list Event) :
  let s := run es mount in
  mounted s = true -> (isTyping s = true <-> intervalId s <> None).
Proof.
  intros s Hm.
  pose proof (Inv_run es mount Inv_mount) as HI.
  pose proof (InvL_run es mount Inv_mount InvL_mount) as HL.
  fold s in HI, HL. split.
  - apply (invl_flag _ HL Hm).
  - intros Hi. apply (inv_interval _ HI Hi).
Qed.

Lemma typing_flag_tracks_interval_witness :
  isTyping settling = true <-> intervalId settling <> None.
Proof.
  apply (typing_flag_tracks_interval
           (repeat (Tick AtCall) (String.length (nth 0 PROMPTS "") + 1))).
  vm_compute. reflexivity.
Defined.

(** ** Agent start (lines 149-159) *)

(** X8: in every reachable state the number of scheduled plus the number
    of logged agent starts is 1 when [isLoading] and 0 otherwise, so the
    agent is started at most once; every scheduled or logged start carries
    the three stored answers, and these are non-empty. *)
Theorem agent_started_at_most_once (es : list Event) :
  let s := run es mount in
  pendingAgents (timeouts s) + length (console s) = (if isLoading s then 1 else 0)
  /\ (forall r t l, In (AgentStarted r t l) (timeouts s) ->
        (r, t, l) = (repoLink s, teamName s, leaderName s)
        /\ r <> "" /\ t <> "" /\ l <> "")
  /\ (forall r t l, In (r, t, l) (console s) ->
        (r, t, l) = (repoLink s, teamName s, leaderName s)
        /\ r <> "" /\ t <> "" /\ l <> "").
Proof.
  intros s.
  pose proof (Inv_run es mount Inv_mount) as HI.
  pose proof (InvA_run es mount InvA_mount) as HA.
  fold s in HI, HA. pose proof (inva_count _ HA) as Hn.
  assert (Hne : isLoading s = true ->
                repoLink s <> "" /\ teamName s <> "" /\ leaderName s <> "").
  { intros El. pose proof (inv_loading _ HI El) as E6.
    pose proof (inv_repo _ HI). pose proof (inv_team _ HI).
    pose proof (inv_leader _ HI). intuition lia. }
  split; [exact Hn|]. split.
  - intros r t l Hin. pose proof (inva_args _ HA r t l Hin) as E.
    split; [exact E|]. injection E as -> -> ->. apply Hne.
    destruct (isLoading s); [reflexivity|]. exfalso.
    eapply no_pending_agent; [|exact Hin]. lia.
  - intros r t l Hin. pose proof (inva_console _ HA _ Hin) as E.
    split; [exact E|]. injection E as -> -> ->. apply Hne.
    destruct (isLoading s); [reflexivity|]. exfalso.
    destruct (console s); [destruct Hin|cbn in Hn; lia].
Qed.

(** ** Progress *)

(** X9: a mounted component is never stuck: from every reachable state in
    which it is mounted some continuation of events brings [step] to 6, and
    there the button is enabled unless the agent is already running. *)
Theorem session_can_always_complete (es : list Event) :
  let s := run es mount in
  mounted s = true ->
  exists es', step (run es' s) = 6
              /\ (isButtonEnabled (run es' s) = true \/ isLoading (run es' s) = true).
Proof.
  intros s Hm.
  pose proof (Inv_run es mount Inv_mount) as HI.
  pose proof (InvH_run es mount Inv_mount InvH_mount) as HH.
  pose proof (InvL_run es mount Inv_mount InvL_mount) as HL.
  fold s in HI, HH, HL.
  destruct (completion (6 - step s) s HI HH HL Hm) as (es' & E & _).
  { pose proof (inv_max _ HI). lia. }
  exists es'. split; [exact E|].
  pose proof (Inv_run es' s HI) as HI'.
  destruct (isLoading (run es' s)) eqn:El; [right; reflexivity|left].
  apply isButtonEnabled_spec.
  pose proof (inv_repo _ HI'). pose proof (inv_team _ HI').
  pose proof (inv_leader _ HI'). intuition lia.
Qed.

Lemma session_can_always_complete_witness :
  exists es', step (run es' awaitingSecond) = 6
              /\ (isButtonEnabled (run es' awaitingSecond) = true
                  \/ isLoading (run es' awaitingSecond) = true).
Proof.
  apply (session_can_always_complete
           (typePrompt AtCall 0 ++ answer "https://github.com/o/r" 10
            ++ typePrompt AtCall 1 ++ [Change "   "])).
  vm_compute. reflexivity.
Defined.

(** ** What is displayed (lines 166-195, 247, 269) *)

(** X10: in every reachable state the rendered history has [step] rows:
    the first [step] of the three prompts in green behind "> ", each followed
    by its stored answer in white behind "$ ". *)
Theorem rendered_history_rows (es : list Event) :
  let s := run es mount in
  renderHistory s
  = firstn (step s)
      [ mkRow SYSTEM_COLOR "> Enter Github Repository Link";
        mkRow USER_COLOR (String.append "$ " (repoLink s));
        mkRow SYSTEM_COLOR "> Enter Team Name";
        mkRow USER_COLOR (String.append "$ " (teamName s));
        mkRow SYSTEM_COLOR "> Enter Team Leader Name";
        mkRow USER_COLOR (String.append "$ " (leaderName s)) ]
  /\ length (renderHistory s) = step s.
Proof.
  intros s.
  pose proof (Inv_run es mount Inv_mount) as HI.
  pose proof (InvH_run es mount Inv_mount InvH_mount) as HH.
  fold s in HI, HH. split.
  - unfold renderHistory.
    rewrite <- (map_map view
                  (fun p => match fst p with
                            | system => mkRow SYSTEM_COLOR (String.append "> " (snd p))
                            | user => mkRow USER_COLOR (String.append "$ " (snd p))
                            end)).
    rewrite (invh_hist _ HH), <- firstn_map. reflexivity.
  - unfold renderHistory. rewrite length_map. apply (inv_len _ HI).
Qed.

(** X11: in every reachable state the active line is absent exactly at
    step 6; whenever the hidden input exists the active line is the white
    "$ " line showing the current text; during a system step it is the green
    "> " line; and while the loading overlay is shown there is no active
    line, no input and no enabled button. *)
Theorem active_line_input_and_overlay (es : list Event) :
  let s := run es mount in
  (renderActiveLine s = None <-> step s = 6)
  /\ (inputRendered s = true ->
      renderActiveLine s
      = Some (mkRow USER_COLOR (String.append "$ " (currentText s))))
  /\ (step s mod 2 = 0 -> step s < 6 ->
      renderActiveLine s
      = Some (mkRow SYSTEM_COLOR (String.append "> " (currentText s)))
      /\ inputRendered s = false)
  /\ (overlayRendered s = true ->
      renderActiveLine s = None /\ inputRendered s = false
      /\ isButtonEnabled s = false).
Proof.
  intros s. pose proof (Inv_run es mount Inv_mount) as HI. fold s in HI.
  pose proof (inv_max _ HI) as Hm.
  unfold renderActiveLine, inputRendered, overlayRendered.
  split; [|split; [|split]].
  - destruct (Nat.leb_spec 6 (step s)); split; intros E;
      try reflexivity; try discriminate E; lia.
  - intros Hr.
    destruct (step s mod 2 =? 0) eqn:Ep;
      [rewrite andb_false_r in Hr; discriminate Hr|].
    apply Nat.eqb_neq in Ep.
    destruct (Nat.leb_spec 6 (step s)); [|reflexivity].
    exfalso. apply Ep. replace (step s) with 6 by lia. reflexivity.
  - intros Ep Hs. apply Nat.eqb_eq in Ep. rewrite Ep.
    destruct (Nat.leb_spec 6 (step s)); [lia|].
    split; [reflexivity|]. rewrite andb_false_r. reflexivity.
  - intros El. pose proof (inv_loading _ HI El) as E6.
    rewrite E6, El. cbn. rewrite andb_false_r.
    repeat split; try reflexivity. apply loading_disables, El.
Qed.

(** ** The timing of the updater is cosmetic *)

Ltac open_pair s1 s2 :=
  let h1 := fresh "h" in
  let h2 := fresh "h" in
  let E := fresh "E" in
  let C := fresh "C" in
  intros [E C];
  destruct s1 as [h1 ? ? ? ? ?]; destruct h1 as [? ? ? ? ? ? ? ?];
  destruct s2 as [h2 ? ? ? ? ?]; destruct h2 as [? ? ? ? ? ? ? ?];
  unfold eraseText in E; cbn in E, C; injection E as -> -> -> -> -> -> -> -> -> -> -> ->.

Ltac sim_close :=
  cbn in *; rewrite ?Nat.eqb_refl in *; cbn in *;
  try discriminate; try congruence;
  (split; [reflexivity|]); auto.

Lemma Sim_dispatch e (s1 s2 : State) :
  Inv s1 -> Sim s1 s2 -> Sim (dispatch e s1) (dispatch (atCall e) s2).
Proof.
  intros HI. pose proof (inv_idle _ HI) as Hid. revert Hid. clear HI.
  destruct e; cbn [atCall]; intros Hid; open_pair s1 s2; cbn in Hid.
  - unfold Sim, eraseText, dispatch, intervalCallback. cbn.
    destruct intervalId1 as [a|]; [|split; [reflexivity|exact C]].
    assert (Hn : ~ (step1 mod 2 = 1 \/ step1 = 6)).
    { intros X. destruct (Hid X) as (_ & N & _). discriminate N. }
    destruct mounted1; cbn; split_ifs; cbn; (split; [reflexivity|]);
      intros X; contradiction.
  - unfold Sim, eraseText, dispatch, commitRender, autoTypeEffect, runCleanup,
      timeoutCallback. cbn.
    destruct (nth_error timeouts1 i) as [c|]; [|split; [reflexivity|exact C]].
    destruct c, mounted1; cbn; split_ifs; sim_close.
  - unfold Sim, eraseText, dispatch, inputRendered, handleUserInputChange. cbn.
    destruct mounted1; cbn; split_ifs; sim_close.
  - unfold Sim, eraseText, dispatch, inputRendered. cbn.
    destruct mounted1; cbn; [|split; [reflexivity|exact C]].
    destruct (step1 mod 2 =? 0) eqn:Ep; cbn; [split; [reflexivity|exact C]|].
    destruct isLoading1; cbn; [split; [reflexivity|exact C]|].
    assert (Ec : currentText0 = currentText1).
    { apply C. left. apply Nat.eqb_neq in Ep.
      pose proof (Nat.mod_upper_bound step1 2). lia. }
    subst. unfold handleKeyDown, commitRender, autoTypeEffect, runCleanup. cbn.
    split_ifs; sim_close.
  - unfold Sim, eraseText, dispatch, buttonClickable, isButtonEnabled,
      handleRunAgent, setTimeout. cbn.
    destruct mounted1; cbn; split_ifs; sim_close.
  - unfold Sim, eraseText, dispatch, runCleanup. cbn.
    destruct mounted1; cbn; split_ifs; sim_close.
Qed.

Lemma Sim_run es : forall s1 s2 : State,
  Inv s1 -> Sim s1 s2 -> Sim (run es s1) (run (map atCall es) s2).
Proof.
  induction es as [|e es IH]; intros s1 s2 HI H; [exact H|].
  change (run (e :: es) s1) with (run es (dispatch e s1)).
  change (run (map atCall (e :: es)) s2)
    with (run (map atCall es) (dispatch (atCall e) s2)).
  apply IH; [apply Inv_dispatch, HI|apply Sim_dispatch; assumption].
Qed.

(** X12: when React applies the updater of line 88 changes nothing but
    the text shown while a prompt is being typed and settling: replaying any
    run with every updater applied at call time gives the same history, step,
    answers, flags, timers and log, and on every user step and at step 6 the
    same current text as well. *)
Theorem updater_timing_only_affects_typed_text (es : list Event) :
  let s1 := run es mount in
  let s2 := run (map atCall es) mount in
  eraseText s1 = eraseText s2
  /\ history s1 = history s2 /\ step s1 = step s2
  /\ (forall j, slot j s1 = slot j s2)
  /\ timeouts s1 = timeouts s2 /\ console s1 = console s2
  /\ isButtonEnabled s1 = isButtonEnabled s2
  /\ (step s1 mod 2 = 1 \/ step s1 = 6 -> s1 = s2).
Proof.
  intros s1 s2.
  assert (H : Sim s1 s2).
  { apply Sim_run; [apply Inv_mount|]. split; reflexivity. }
  destruct H as [E C]. split; [exact E|].
  destruct s1 as [h1 ? ? ? ? ?]; destruct h1.
  destruct s2 as [h2 ? ? ? ? ?]; destruct h2.
  unfold eraseText in E; cbn in E, C.
  injection E as -> -> -> -> -> -> -> -> -> -> -> ->.
  unfold slot, isButtonEnabled. cbn.
  repeat split; auto. intros X. rewrite (C X). reflexivity.
Qed.
